(** * Error handling in an Express application: a shallow embedding

    The development follows the three source files of the repository:

    - [src/utils/ApiError.ts]     the error model ([ApiError], [NotFoundError]);
    - [src/utils/asyncWrapper.ts] the adapter for asynchronous handlers;
    - [src/index.ts]              the registered layers, the error-formatting
                                  middleware and the two process-wide hooks.

    JavaScript values are a small inductive type, objects live in a heap and
    are passed by reference, and every piece of code is a computation in a
    state monad over the [World] that can also throw, stop the process, or
    stay suspended on a promise that never settles.  Express, Node's
    response object and the body parsers are not part of the repository; the
    part of their behaviour that the program relies on is written out: the
    dispatch in module [Express], the checks of [res.send] with the response,
    and the verdict of each body parser with the request. *)

From Stdlib Require Import ZArith Lia Ascii String Sorted.
From stdpp Require Import base list strings.

Open Scope string_scope.
Open Scope list_scope.

(* ===================================================================== *)
(** ** JavaScript values *)
(* ===================================================================== *)

(** A JavaScript [number], restricted to what a status code can be compared
    with: the integers and [NaN]. *)
Inductive number :=
| Int (z : Z)
| NaN.

Definition loc := nat.

Inductive JsValue :=
| JUndefined
| JNull
| JBool (b : bool)
| JNum (n : number)
| JStr (s : string)
| JRef (l : loc)      (* an object, by its address in the heap *)
| JRes.               (* the response object [res] of the request in flight *)

#[global] Instance number_eq_dec : EqDecision number.
Proof. solve_decision. Defined.

#[global] Instance JsValue_eq_dec : EqDecision JsValue.
Proof. solve_decision. Defined.

(** ToBoolean. *)
Definition truthy (v : JsValue) : bool :=
  match v with
  | JUndefined | JNull => false
  | JBool b => b
  | JNum (Int z) => negb (z =? 0)%Z
  | JNum NaN => false
  | JStr s => negb (String.eqb s "")
  | JRef _ | JRes => true
  end.

(** The operator [a || b]. *)
Definition js_or (a b : JsValue) : JsValue := if truthy a then a else b.

(** The classes whose instances the program creates or receives. *)
Inductive Class :=
| ClsObject
| ClsError
| ClsTypeError
| ClsRangeError
| ClsHttpError        (* the errors of the body parsers *)
| ClsApiError
| ClsNotFoundError.

(** Own properties in insertion order. *)
Record Obj := mkObj { cls : Class; props : list (string * JsValue) }.

Fixpoint assoc (k : string) (ps : list (string * JsValue)) : option JsValue :=
  match ps with
  | [] => None
  | (k', v) :: rest => if String.eqb k k' then Some v else assoc k rest
  end.

(** [o[k] = v]: overwrite in place, or append a new own property. *)
Fixpoint assign (k : string) (v : JsValue) (ps : list (string * JsValue))
  : list (string * JsValue) :=
  match ps with
  | [] => [(k, v)]
  | (k', v') :: rest =>
      if String.eqb k k' then (k, v) :: rest else (k', v') :: assign k v rest
  end.

(** The name that the prototype of a class of errors carries. *)
Definition proto_name (c : Class) : string :=
  match c with
  | ClsTypeError => "TypeError"
  | ClsRangeError => "RangeError"
  | _ => "Error"
  end.

(** What the prototype chain of a class answers for a property that is not
    an own property, among the properties the program reads: the prototypes
    of the errors carry [name] and the empty [message]. *)
Definition proto_prop (c : Class) (k : string) : JsValue :=
  match c with
  | ClsObject => JUndefined
  | _ =>
      if String.eqb k "name" then JStr (proto_name c)
      else if String.eqb k "message" then JStr ""
      else JUndefined
  end.

Definition obj_get (o : Obj) (k : string) : JsValue :=
  match assoc k (props o) with
  | Some v => v
  | None => proto_prop (cls o) k
  end.

(* ===================================================================== *)
(** ** Requests, responses and the world *)
(* ===================================================================== *)

Inductive Method :=
| GET | POST | HEAD | OPTIONS | PUT | DELETE | PATCH.

Definition method_eqb (a b : Method) : bool :=
  match a, b with
  | GET, GET | POST, POST | HEAD, HEAD | OPTIONS, OPTIONS
  | PUT, PUT | DELETE, DELETE | PATCH, PATCH => true
  | _, _ => false
  end.

(** The statuses of the errors that the body parsers forward: a malformed
    or aborted body (400), a body that is too large (413), a charset or an
    encoding they do not support (415), a request stream they cannot read
    (500). *)
Inductive ParserStatus :=
| Status400
| Status413
| Status415
| Status500.

Definition parser_status (s : ParserStatus) : Z :=
  match s with
  | Status400 => 400
  | Status413 => 413
  | Status415 => 415
  | Status500 => 500
  end.

(** The error of a body parser as the program can read it. *)
Record ParserError := mkParserError {
  pe_status : ParserStatus;
  pe_name : string;
  pe_message : string;
  pe_stack : string
}.

(** What a body parser does with a request: it passes the request on (the
    body is not of its type, or it parsed the body into [req.body]), or it
    forwards an error of its own. *)
Inductive Verdict :=
| PassOn
| Forward (e : ParserError).

(** The request context: read-only, supplied from outside.  [body] is the
    body as the body parsers leave it in [req.body] when both pass the
    request on; the two verdicts stand for the headers and the raw bytes,
    which decide what [bodyParser.json()] and [bodyParser.urlencoded()] do.
    Conditional requests (If-None-Match, If-Modified-Since) are not
    represented. *)
Record Request := mkRequest {
  method : Method;
  path : string;
  body : JsValue;
  json_verdict : Verdict;
  urlencoded_verdict : Verdict
}.

(** An object literal handed to [res.send]. *)
Definition Literal := list (string * JsValue).

(** The response object: the value of [res.statusCode], the JSON bodies
    that [res.send] has passed on for writing, and the status lines of the
    heads that [res.send] has sent.  What a HEAD request or a
    conditional GET changes on the wire is not represented. *)
Record Response := mkResponse {
  res_status_code : JsValue;
  res_sent : list Literal;
  res_head : list Z
}.

Definition fresh_response : Response :=
  {| res_status_code := JNum (Int 200); res_sent := []; res_head := [] |}.

(** What the runtime decides and the program cannot: the number a string
    or an object converts to, and the text a value has in a message. *)
Record Runtime := mkRuntime {
  coerce : JsValue -> number;
  inspect : JsValue -> string
}.

Inductive Event :=
| EvHandle (idx : nat)                      (* layer [idx] run as a request handler *)
| EvHandleError (idx : nat) (err : JsValue) (* layer [idx] run as an error handler *)
| EvFinal (err : JsValue)                   (* the stack is exhausted *)
| EvConsole (args : list JsValue)           (* console.log *)
| EvNext (arg : JsValue).                   (* a recorded call of [next] *)

Record World := mkWorld {
  heap : list Obj;             (* the objects allocated so far *)
  res : Response;              (* the response of the request in flight *)
  trace : list Event;          (* what happened, oldest first *)
  node_env : option string;    (* process.env.NODE_ENV *)
  v8_frames : string;          (* the frames V8 renders under a stack header *)
  runtime : Runtime
}.

Definition set_heap (h : list Obj) (w : World) : World :=
  {| heap := h; res := res w; trace := trace w;
     node_env := node_env w; v8_frames := v8_frames w; runtime := runtime w |}.

Definition set_res (r : Response) (w : World) : World :=
  {| heap := heap w; res := r; trace := trace w;
     node_env := node_env w; v8_frames := v8_frames w; runtime := runtime w |}.

Definition set_trace (t : list Event) (w : World) : World :=
  {| heap := heap w; res := res w; trace := t;
     node_env := node_env w; v8_frames := v8_frames w; runtime := runtime w |}.

(* ===================================================================== *)
(** ** The monad of JavaScript code *)
(* ===================================================================== *)

Inductive Result (A : Type) :=
| Ok (a : A)           (* normal completion *)
| Thrown (e : JsValue) (* an exception is propagating *)
| Exited (code : Z)    (* process.exit *)
| Blocked.             (* suspended on a promise that never settles *)

Arguments Ok {A} a.
Arguments Thrown {A} e.
Arguments Exited {A} code.
Arguments Blocked {A}.

Definition M (A : Type) : Type := World -> Result A * World.

Definition ret {A} (a : A) : M A := fun w => (Ok a, w).

Definition bind {A B} (m : M A) (k : A -> M B) : M B :=
  fun w =>
    match m w with
    | (Ok a, w') => k a w'
    | (Thrown e, w') => (Thrown e, w')
    | (Exited c, w') => (Exited c, w')
    | (Blocked, w') => (Blocked, w')
    end.

Notation "'let*' x ':=' m 'in' k" := (bind m (fun x => k))
  (at level 10, x name, m at level 100, k at level 200).
Notation "m ';;' k" := (bind m (fun _ => k))
  (at level 100, k at level 200, right associativity).

Definition throw {A} (e : JsValue) : M A := fun w => (Thrown e, w).

(** [try { m } catch (e) { h e }]: only exceptions are caught. *)
Definition try_catch {A} (m : M A) (h : JsValue -> M A) : M A :=
  fun w =>
    match m w with
    | (Thrown e, w') => h e w'
    | r => r
    end.

Definition log (ev : Event) : M unit :=
  fun w => (Ok tt, set_trace (trace w ++ [ev]) w).

Definition console_log (args : list JsValue) : M unit := log (EvConsole args).

Definition process_exit {A} (code : Z) : M A := fun w => (Exited code, w).

(** [new C(...)]: a fresh object at the end of the heap. *)
Definition alloc (o : Obj) : M loc :=
  fun w => (Ok (length (heap w)), set_heap (heap w ++ [o]) w).

(** [this.k = v]. *)
Definition set_prop (l : loc) (k : string) (v : JsValue) : M unit :=
  fun w =>
    match heap w !! l with
    | Some o =>
        (Ok tt, set_heap (<[l := mkObj (cls o) (assign k v (props o))]> (heap w)) w)
    | None => (Ok tt, w)
    end.

(** The header of a stack trace: [name: message], or [name] alone when the
    message is empty. *)
Definition stack_header (name message : string) : string :=
  if String.eqb message "" then name else name ++ ": " ++ message.

Definition stack_of (w : World) (name message : string) : string :=
  stack_header name message ++ v8_frames w.

(** [new Error(message)] for a class [c] of errors. *)
Definition new_error_of (c : Class) (name message : string) : M loc :=
  fun w =>
    alloc (mkObj c [("stack", JStr (stack_of w name message));
                    ("message", JStr message)]) w.

Definition new_Error (message : string) : M JsValue :=
  let* l := new_error_of ClsError "Error" message in ret (JRef l).

Definition new_TypeError (message : string) : M JsValue :=
  let* l := new_error_of ClsTypeError "TypeError" message in ret (JRef l).

Definition new_RangeError (message : string) : M JsValue :=
  let* l := new_error_of ClsRangeError "RangeError [ERR_HTTP_INVALID_STATUS_CODE]" message in
  ret (JRef l).

(** [v.k]: a property read, for the properties the program reads
    ([statusCode], [message], [stack], [name]).  Reading from [undefined] or
    [null] throws a [TypeError] that names the value; of the response object
    only [statusCode] is defined; strings, numbers and booleans have none of
    them. *)
Definition get_prop (v : JsValue) (k : string) : M JsValue :=
  match v with
  | JUndefined =>
      let* e := new_TypeError ("Cannot read properties of undefined (reading '" ++ k ++ "')") in
      throw e
  | JNull =>
      let* e := new_TypeError ("Cannot read properties of null (reading '" ++ k ++ "')") in
      throw e
  | JRef l =>
      fun w =>
        match heap w !! l with
        | Some o => (Ok (obj_get o k), w)
        | None => (Ok JUndefined, w)
        end
  | JRes =>
      fun w =>
        (Ok (if String.eqb k "statusCode" then res_status_code (res w) else JUndefined), w)
  | JBool _ | JNum _ | JStr _ => ret JUndefined
  end.

(** ToNumber, and ToInt32 of an integer: the value modulo 2^32, taken
    between -2^31 and 2^31 - 1. *)
Definition to_number (w : World) (v : JsValue) : number :=
  match v with
  | JNum n => n
  | JUndefined => NaN
  | JNull => Int 0
  | JBool b => Int (if b then 1 else 0)
  | JStr _ | JRef _ | JRes => coerce (runtime w) v
  end.

Definition to_int32 (z : Z) : Z :=
  ((z + 2147483648) mod 4294967296 - 2147483648)%Z.

(** The status line that Node writes for a value of [res.statusCode]:
    [statusCode |= 0]. *)
Definition status_line (w : World) (code : JsValue) : Z :=
  match to_number w code with
  | Int z => to_int32 z
  | NaN => 0
  end.

(** Node refuses a status line outside 100..999. *)
Definition valid_line (line : Z) : bool :=
  ((100 <=? line) && (line <=? 999))%Z.

(** [res.send] empties the body when [res.statusCode] is 204, 304 or 205. *)
Definition strips_body (code : JsValue) : bool :=
  match code with
  | JNum (Int z) => ((z =? 204) || (z =? 304) || (z =? 205))%Z
  | _ => false
  end.

(** Node writes no body under a status line 1xx, 204 or 304. *)
Definition head_only (line : Z) : bool :=
  ((line =? 204) || (line =? 304) || ((100 <=? line) && (line <=? 199)))%Z.

Definition keeps_body (w : World) (code : JsValue) : bool :=
  negb (strips_body code) && negb (head_only (status_line w code)).

(** [res.status(code)] only stores the code. *)
Definition res_status (code : JsValue) : M unit :=
  fun w => (Ok tt, set_res (mkResponse code (res_sent (res w)) (res_head (res w))) w).

(** [res.send(b)] for an object [b]: the body is serialised, the head goes
    out with the status line of [res.statusCode], and the body follows
    unless the status forbids one.  A status line that Node refuses makes the
    call throw a [RangeError], and nothing is written. *)
Definition res_send (b : Literal) : M unit :=
  fun w =>
    let code := res_status_code (res w) in
    let line := status_line w code in
    if valid_line line
    then (Ok tt,
          set_res
            (mkResponse code
               (if keeps_body w code then res_sent (res w) ++ [b] else res_sent (res w))
               (res_head (res w) ++ [line]))
            w)
    else
      (let* e := new_RangeError ("Invalid status code: " ++ inspect (runtime w) code) in
       throw e) w.

(** JSON.stringify leaves out the properties whose value is [undefined]. *)
Definition json_fields (b : Literal) : Literal :=
  filter (fun kv => kv.2 <> JUndefined) b.

(* ===================================================================== *)
(** ** Promises and asynchronous functions *)
(* ===================================================================== *)

(** A promise by the way it settles. *)
Inductive Promise :=
| Fulfilled (v : JsValue)
| Rejected (e : JsValue)
| Pending.                 (* never settles *)

(** [async () => { body }]: the call never throws; what the body throws
    rejects the promise it returns. *)
Definition async_fn (body : M JsValue) : M Promise :=
  fun w =>
    match body w with
    | (Ok v, w') => (Ok (Fulfilled v), w')
    | (Thrown e, w') => (Ok (Rejected e), w')
    | (Exited c, w') => (Exited c, w')
    | (Blocked, w') => (Ok Pending, w')
    end.

(** [await p]. *)
Definition await (p : Promise) : M JsValue :=
  match p with
  | Fulfilled v => ret v
  | Rejected e => throw e
  | Pending => fun w => (Blocked, w)
  end.

(** [Promise.resolve(p)] of a promise is that promise. *)
Definition Promise_resolve (p : Promise) : Promise := p.

(** [p.catch(cb)]: the callback runs on a rejection and settles the derived
    promise. *)
Definition Promise_catch (p : Promise) (cb : JsValue -> M unit) : M Promise :=
  match p with
  | Fulfilled v => ret (Fulfilled v)
  | Pending => ret Pending
  | Rejected e =>
      fun w =>
        match cb e w with
        | (Ok _, w') => (Ok (Fulfilled JUndefined), w')
        | (Thrown e', w') => (Ok (Rejected e'), w')
        | (Exited c, w') => (Exited c, w')
        | (Blocked, w') => (Ok Pending, w')
        end
  end.

(* ===================================================================== *)
(** ** The process-wide hooks of [index.ts] *)
(* ===================================================================== *)

Module Process.

(** [process.on('uncaughtException', ...)], lines 58-63. *)
Definition uncaughtException (err : JsValue) : M unit :=
  let* n := get_prop err "name" in
  let* m := get_prop err "message" in
  console_log [n; m] ;;
  console_log [JStr "UNCAUGHT EXCEPTION! 💥 Shutting down..."] ;;
  process_exit 1%Z.

(** An exception that nothing catches reaches the hook; an exception of the
    hook itself ends the process with code 7. *)
Definition uncaught {A} (e : JsValue) : M A :=
  fun w =>
    match uncaughtException e w with
    | (Exited c, w') => (Exited c, w')
    | (_, w') => (Exited 7%Z, w')
    end.

(** [process.on('unhandledRejection', ...)], lines 51-56. *)
Definition unhandledRejection (reason : JsValue) : M unit :=
  try_catch
    (let* n := get_prop reason "name" in
     let* m := get_prop reason "message" in
     console_log [n; m] ;;
     console_log [JStr "UNHANDLED REJECTION! 💥 Shutting down..."] ;;
     process_exit 1%Z)
    uncaught.

(** A promise that nobody observes: a rejection reaches the hook. *)
Definition drop_promise (p : Promise) : M unit :=
  match p with
  | Rejected e => unhandledRejection e
  | Fulfilled _ | Pending => ret tt
  end.

End Process.

(* ===================================================================== *)
(** ** The error model: [src/utils/ApiError.ts] *)
(* ===================================================================== *)

Module StatusCodes.

Definition BAD_REQUEST : Z := 400.
Definition NOT_FOUND : Z := 404.

End StatusCodes.

(** [Error.captureStackTrace(this, this.constructor)]: the stack is rendered
    again from the object as it is now. *)
Definition captureStackTrace (l : loc) : M unit :=
  let* n := get_prop (JRef l) "name" in
  let* m := get_prop (JRef l) "message" in
  fun w =>
    let name := match n with JStr s => s | _ => "" end in
    let message := match m with JStr s => s | _ => "" end in
    set_prop l "stack" (JStr (stack_of w name message)) w.

(** The constructor of [ApiError] for an instance of class [c]:
    [super(message); this.statusCode = statusCode; captureStackTrace]. *)
Definition ApiError_init (c : Class) (statusCode : number) (message : string) : M JsValue :=
  let* l := new_error_of c "Error" message in
  set_prop l "statusCode" (JNum statusCode) ;;
  captureStackTrace l ;;
  ret (JRef l).

Definition new_ApiError (statusCode : number) (message : string) : M JsValue :=
  ApiError_init ClsApiError statusCode message.

Definition new_NotFoundError (path : string) : M JsValue :=
  ApiError_init ClsNotFoundError (Int StatusCodes.NOT_FOUND)
    ("The requested path " ++ path ++ " not found!").

(* ===================================================================== *)
(** ** Handlers and the asynchronous adapter: [src/utils/asyncWrapper.ts] *)
(* ===================================================================== *)

(** [next(err)]; a call without argument is [next JUndefined]. *)
Definition Next := JsValue -> M unit.

(** What calling a handler gives back: nothing, or a promise. *)
Inductive Completion :=
| RVoid
| RPromise (p : Promise).

Definition Handler := Request -> Next -> M Completion.
Definition ErrorHandler := JsValue -> Request -> Next -> M Completion.

(** [type AsyncFunction = (req, res, next) => Promise<any>]. *)
Definition AsyncFunction := Request -> Next -> M Promise.

(** [asyncWrapper], lines 22-24: the handler is called, the promise it
    returns gets a [catch] that calls [next(err)], and the derived promise
    is dropped. *)
Definition asyncWrapper (handler : AsyncFunction) : Handler :=
  fun req next =>
    let* p := handler req next in
    let* q := Promise_catch (Promise_resolve p) (fun err => next err) in
    Process.drop_promise q ;;
    ret RVoid.

(* ===================================================================== *)
(** ** Express: the dispatch the program relies on *)
(* ===================================================================== *)

Module Express.

(** Lower case of an ASCII letter; route paths are matched without regard
    to case. *)
Definition lower_ascii (c : ascii) : ascii :=
  let n := nat_of_ascii c in
  if (65 <=? n)%nat && (n <=? 90)%nat then ascii_of_nat (n + 32) else c.

Fixpoint lower (s : string) : string :=
  match s with
  | EmptyString => EmptyString
  | String c rest => String (lower_ascii c) (lower rest)
  end.

(** A route path without parameters matches the same path, in any case, with
    or without one trailing slash. *)
Definition path_matches (pattern p : string) : bool :=
  String.eqb (lower p) (lower pattern) || String.eqb (lower p) (lower pattern ++ "/").

(** A route for GET also answers HEAD. *)
Definition handles_method (route_method request_method : Method) : bool :=
  method_eqb route_method request_method
  || (method_eqb request_method HEAD && method_eqb route_method GET).

Inductive Layer :=
| Route (m : Method) (pattern : string) (h : Handler)  (* app.get, app.post *)
| Use (h : Handler)                                    (* app.use, three parameters *)
| UseError (h : ErrorHandler).                         (* app.use, four parameters *)

Definition route_matches (m : Method) (pattern : string) (req : Request) : bool :=
  path_matches pattern (path req) && handles_method m (method req).

(** [err === s] for a string [s]. *)
Definition js_is (err : JsValue) (s : string) : bool :=
  match err with
  | JStr s' => String.eqb s' s
  | _ => false
  end.

(** The argument of [next] as the router reads it: ['route'] and every falsy
    value mean that no error is pending. *)
Definition layerError (err : JsValue) : option JsValue :=
  if js_is err "route" then None
  else if truthy err then Some err else None.

(** The values that the router takes for an error: the truthy ones, but for
    the two words ['route'] and ['router']. *)
Definition is_error (err : JsValue) : bool :=
  negb (js_is err "router") && negb (js_is err "route") && truthy err.

(** No layer is left: the request goes to Express's default handler.  The
    event records that the request reached it; the page that the default
    handler writes by itself (without [res.send]) is not represented. *)
Definition finalhandler (err : JsValue) : M unit := log (EvFinal err).

(** A handler's promise is not observed by the router. *)
Definition settle (c : Completion) : M unit :=
  match c with
  | RVoid => ret tt
  | RPromise p => Process.drop_promise p
  end.

(** A layer calls its function inside [try]/[catch] and forwards what it
    throws. *)
Definition call_layer (fn : M Completion) (next : Next) : M unit :=
  fun w =>
    match fn w with
    | (Ok c, w') => settle c w'
    | (Thrown e, w') => next e w'
    | (Exited c, w') => (Exited c, w')
    | (Blocked, w') => (Blocked, w')
    end.

(** [next(err)] at position [idx] of the stack: the first layer that applies
    is run with the [next] of the position after it. *)
Fixpoint dispatch (idx : nat) (stack : list Layer) (req : Request) (err : JsValue)
  : M unit :=
  if js_is err "router" then finalhandler JUndefined
  else
    match stack with
    | [] => finalhandler (default JUndefined (layerError err))
    | layer :: rest =>
        let next : Next := dispatch (S idx) rest req in
        match layer, layerError err with
        | Route m pattern h, None =>
            if route_matches m pattern req
            then log (EvHandle idx) ;; call_layer (h req next) next
            else next err
        | Use h, None => log (EvHandle idx) ;; call_layer (h req next) next
        | UseError h, Some e => log (EvHandleError idx e) ;; call_layer (h e req next) next
        | Route _ _ _, Some _ | Use _, Some _ | UseError _, None => next err
        end
    end.

(** A new request: its own response object and its own trace. *)
Definition begin_request (w : World) : World :=
  set_trace [] (set_res fresh_response w).

Definition handle (stack : list Layer) (req : Request) : M unit :=
  fun w => dispatch 0 stack req JUndefined (begin_request w).

End Express.

(* ===================================================================== *)
(** ** The application: [src/index.ts] *)
(* ===================================================================== *)

Module Index.

Import Express.

(** The error object that a body parser forwards. *)
Definition parser_error_obj (e : ParserError) : Obj :=
  mkObj ClsHttpError
    [("stack", JStr (pe_stack e));
     ("message", JStr (pe_message e));
     ("name", JStr (pe_name e));
     ("statusCode", JNum (Int (parser_status (pe_status e))));
     ("status", JNum (Int (parser_status (pe_status e))))].

(** A body parser: it passes the request on with [next()], or it forwards
    its error with [next(err)]. *)
Definition bodyParser (v : Verdict) : Handler :=
  fun req next =>
    match v with
    | PassOn => next JUndefined ;; ret RVoid
    | Forward e =>
        let* l := alloc (parser_error_obj e) in
        next (JRef l) ;;
        ret RVoid
    end.

(** [bodyParser.json()] and [bodyParser.urlencoded(...)], lines 9-10. *)
Definition bodyParser_json : Handler :=
  fun req next => bodyParser (json_verdict req) req next.

Definition bodyParser_urlencoded : Handler :=
  fun req next => bodyParser (urlencoded_verdict req) req next.

(** Both parsers pass the request on. *)
Definition parsers_pass (req : Request) : bool :=
  match json_verdict req, urlencoded_verdict req with
  | PassOn, PassOn => true
  | _, _ => false
  end.

(** [customFunction], lines 20-22. *)
Definition customFunction : M Promise :=
  async_fn
    (let* e := new_ApiError (Int StatusCodes.BAD_REQUEST) "This is just a bad request!" in
     throw e).

(** The handler of [GET /protected] before it is wrapped, lines 14-17. *)
Definition protectedHandler : AsyncFunction :=
  fun req next =>
    async_fn
      (let* p := customFunction in
       await p ;;
       ret JUndefined).

(** The handler of [POST /post], lines 24-29. *)
Definition postHandler : Handler :=
  fun req next =>
    let* p :=
      async_fn
        (console_log [body req] ;;
         res_status (JNum (Int 200)) ;;
         res_send [("message", JStr "Hello World from post!")] ;;
         ret JRes) in
    ret (RPromise p).

(** The catch-all, line 31. *)
Definition catchAll : Handler :=
  fun req next =>
    let* e := new_NotFoundError (path req) in
    next e ;;
    ret RVoid.

(** The error-formatting middleware, lines 33-41. *)
Definition errorFormatter : ErrorHandler :=
  fun err req next =>
    let* sc := get_prop err "statusCode" in
    let statusCode := js_or sc (JNum (Int 500)) in
    res_status statusCode ;;
    let* message := get_prop err "message" in
    let* stack := get_prop err "stack" in
    res_send [("success", JBool false); ("message", message); ("stack", stack)] ;;
    ret RVoid.

(** The layers in the order of registration, with any asynchronous function
    as the handler of [GET /protected]. *)
Definition app_with (h : AsyncFunction) : list Layer :=
  [ Use bodyParser_json;
    Use bodyParser_urlencoded;
    Route GET "/protected" (asyncWrapper h);
    Route POST "/post" postHandler;
    Use catchAll;
    UseError errorFormatter ].

Definition app : list Layer := app_with protectedHandler.

(** The positions of the stages in the stack. *)
Definition idx_protected : nat := 2.
Definition idx_post : nat := 3.
Definition idx_catchAll : nat := 4.
Definition idx_errorFormatter : nat := 5.

End Index.

(* ===================================================================== *)
(** ** Observations on worlds *)
(* ===================================================================== *)

(** A status code that HTTP knows: a three-digit integer from 100 to 599. *)
Definition valid_http_status (v : JsValue) : Prop :=
  exists z, v = JNum (Int z) /\ (100 <= z <= 599)%Z.


Definition nullish (v : JsValue) : bool :=
  match v with
  | JUndefined | JNull => true
  | _ => false
  end.

(** How a [TypeError] names the value it could not read from. *)
Definition nullish_word (v : JsValue) : string :=
  match v with
  | JNull => "null"
  | _ => "undefined"
  end.


(** The value of [v.k] in a world, for a [v] that is not nullish. *)
Definition read (w : World) (v : JsValue) (k : string) : JsValue :=
  match v with
  | JRef l =>
      match heap w !! l with
      | Some o => obj_get o k
      | None => JUndefined
      end
  | JRes => if String.eqb k "statusCode" then res_status_code (res w) else JUndefined
  | _ => JUndefined
  end.

(** The last body that [res.send] has written. *)
Definition last_body (w : World) : option Literal := last (res_sent (res w)).

(** A field of a response body as it appears in the JSON text. *)
Definition json_field (k : string) (b : Literal) : option JsValue :=
  assoc k (json_fields b).

(** A [next] that only records that it was called. *)
Definition spy_next : Next := fun err => log (EvNext err).

(** The positions of the layers that ran, in the order they ran. *)
Definition stage_of (ev : Event) : option nat :=
  match ev with
  | EvHandle idx | EvHandleError idx _ => Some idx
  | EvFinal _ | EvConsole _ | EvNext _ => None
  end.

Definition stages (t : list Event) : list nat := omap stage_of t.

Definition is_formatting (ev : Event) : bool :=
  match ev with
  | EvHandleError idx _ => Nat.eqb idx Index.idx_errorFormatter
  | _ => false
  end.

Definition formatting_count (t : list Event) : nat :=
  length (List.filter is_formatting t).

(** The error that the body parsers forward for a request, if any: the
    parser of JSON comes first. *)
Definition parser_error (req : Request) : option ParserError :=
  match json_verdict req, urlencoded_verdict req with
  | Forward e, _ => Some e
  | PassOn, Forward e => Some e
  | PassOn, PassOn => None
  end.

(** A status with which a response carries its body and its own status
    line: an integer from 200 to 999 that is not 204, 205 or 304. *)
Definition carries_body (z : Z) : Prop :=
  (200 <= z <= 999)%Z /\ z <> 204%Z /\ z <> 205%Z /\ z <> 304%Z.

(* ===================================================================== *)
(** ** The worlds the application leaves *)
(* ===================================================================== *)

(** The object that the constructor of [ApiError] leaves in the heap. *)
Definition api_error_obj (c : Class) (statusCode : number) (message frames : string) : Obj :=
  mkObj c [("stack", JStr (stack_header "Error" message ++ frames));
           ("message", JStr message);
           ("statusCode", JNum statusCode)].

Definition is_api_class (c : Class) : bool :=
  match c with ClsApiError | ClsNotFoundError => true | _ => false end.

Definition not_found_obj (p frames : string) : Obj :=
  api_error_obj ClsNotFoundError (Int StatusCodes.NOT_FOUND)
    ("The requested path " ++ p ++ " not found!") frames.

Definition bad_request_obj (frames : string) : Obj :=
  api_error_obj ClsApiError (Int StatusCodes.BAD_REQUEST) "This is just a bad request!" frames.

(** The status that the error middleware sets, the body it sends, and the
    world after the response went out. *)
Definition format_status (w : World) (err : JsValue) : JsValue :=
  js_or (read w err "statusCode") (JNum (Int 500)).

Definition error_body (w : World) (err : JsValue) : Literal :=
  [("success", JBool false);
   ("message", read w err "message");
   ("stack", read w err "stack")].

Definition formatted (w : World) (err : JsValue) : World :=
  set_res
    (mkResponse (format_status w err)
       (if keeps_body w (format_status w err)
        then res_sent (res w) ++ [error_body w err]
        else res_sent (res w))
       (res_head (res w) ++ [status_line w (format_status w err)]))
    w.

(** The error middleware can answer: Node accepts the status line. *)
Definition sendable (w : World) (err : JsValue) : bool :=
  valid_line (status_line w (format_status w err)).

(** The world after [res.send] has refused the status of [err]: the status
    is stored, the [RangeError] is in the heap, nothing is written. *)
Definition refused (w : World) (err : JsValue) : World :=
  set_heap
    (heap w ++
     [mkObj ClsRangeError
        [("stack",
          JStr (stack_of w "RangeError [ERR_HTTP_INVALID_STATUS_CODE]"
                  ("Invalid status code: " ++ inspect (runtime w) (format_status w err))));
         ("message",
          JStr ("Invalid status code: " ++ inspect (runtime w) (format_status w err)))]])
    (set_res (mkResponse (format_status w err) (res_sent (res w)) (res_head (res w))) w).

(** The world after the error middleware at position [idx] has formatted
    the error [err]. *)
Definition after_format (idx : nat) (err : JsValue) (w : World) : World :=
  formatted (set_trace (trace w ++ [EvHandleError idx err]) w) err.

(** The world in which the routes are tried: the two body parsers have
    passed the request on. *)
Definition parsed (w : World) : World :=
  set_trace [EvHandle 0; EvHandle 1] (set_res fresh_response w).

(** The layers from the first route on. *)
Definition routes_with (h : AsyncFunction) : list Express.Layer :=
  [Express.Route GET "/protected" (asyncWrapper h);
   Express.Route POST "/post" Index.postHandler;
   Express.Use Index.catchAll;
   Express.UseError Index.errorFormatter].

(** From the route of [GET /protected], of [POST /post], and from the
    catch-all on. *)
Definition after_protected (w : World) : World :=
  after_format Index.idx_errorFormatter (JRef (length (heap w)))
    (set_heap (heap w ++ [bad_request_obj (v8_frames w)])
       (set_trace (trace w ++ [EvHandle Index.idx_protected]) w)).

Definition after_post (req : Request) (w : World) : World :=
  set_res (mkResponse (JNum (Int 200))
             (res_sent (res w) ++ [[("message", JStr "Hello World from post!")]])
             (res_head (res w) ++ [200%Z]))
    (set_trace (trace w ++ [EvHandle Index.idx_post; EvConsole [body req]]) w).

Definition after_catchAll (req : Request) (w : World) : World :=
  after_format Index.idx_errorFormatter (JRef (length (heap w)))
    (set_heap (heap w ++ [not_found_obj (path req) (v8_frames w)])
       (set_trace (trace w ++ [EvHandle Index.idx_catchAll]) w)).

(** The world after a body parser, the layers [ran] before it included, has
    forwarded its error. *)
Definition after_parser_error (ran : list Event) (e : ParserError) (w : World) : World :=
  after_format Index.idx_errorFormatter (JRef (length (heap w)))
    (set_heap (heap w ++ [Index.parser_error_obj e])
       (set_trace ran (set_res fresh_response w))).

(* ===================================================================== *)
(** ** Concrete inputs *)
(* ===================================================================== *)

Definition world0 : World :=
  {| heap := []; res := fresh_response; trace := [];
     node_env := None; v8_frames := " at index.ts";
     runtime := {| coerce := fun _ => NaN; inspect := fun _ => "?" |} |}.


Definition req_protected : Request := mkRequest GET "/protected" JUndefined PassOn PassOn.
Definition req_post : Request := mkRequest POST "/post" (JRef 0) PassOn PassOn.
Definition req_unknown : Request := mkRequest GET "/unknown-path" JUndefined PassOn PassOn.

(** The world in which [req.body] of [req_post] is the empty object. *)
Definition world_post : World := set_heap [mkObj ClsObject []] world0.

(** A body that is not JSON: the error of [bodyParser.json()]. *)
Definition malformed_json : ParserError :=
  mkParserError Status400 "SyntaxError" "Unexpected token b in JSON at position 1"
    "SyntaxError: Unexpected token b in JSON at position 1 at JSON.parse".

Definition req_post_malformed : Request :=
  mkRequest POST "/post" JUndefined (Forward malformed_json) PassOn.


(* ===================================================================== *)
(** ** Running the primitives *)
(* ===================================================================== *)

Lemma bind_ok {A B} (m : M A) (k : A -> M B) w a w' :
  m w = (Ok a, w') -> bind m k w = k a w'.
Proof. intros H. unfold bind. now rewrite H. Qed.

Lemma bind_assoc {A B C} (m : M A) (f : A -> M B) (g : B -> M C) w :
  bind (bind m f) g w = bind m (fun x => bind (f x) g) w.
Proof. unfold bind. destruct (m w) as [[a | e | c |] w']; reflexivity. Qed.

(** Stepping through a sequence of statements. *)
Tactic Notation "step_with" tactic3(t) :=
  rewrite ?bind_assoc; erewrite bind_ok by t.
Ltac step := step_with reflexivity.

(** Membership in a short concrete list. *)
Ltac no_such_event :=
  repeat match goal with
         | H : In _ _ |- _ => cbn in H
         | H : _ \/ _ |- _ => destruct H
         | H : False |- _ => destruct H
         | H : _ = _ |- _ => discriminate H
         end.

Ltac last_event H :=
  cbn in H;
  repeat match type of H with
         | _ \/ _ => destruct H as [H | H]; [try discriminate H |]
         | False => destruct H
         end;
  try (injection H as <- <-; split; [reflexivity |]).

Ltac sorted_positions :=
  repeat constructor;
  unfold Index.idx_protected, Index.idx_post, Index.idx_catchAll, Index.idx_errorFormatter;
  lia.

Lemma heap_lookup_new (h : list Obj) (o : Obj) : (h ++ [o]) !! length h = Some o.
Proof. now apply list_lookup_middle. Qed.

Lemma lookup_new_object (h : list Obj) (x o : Obj) (l : loc) :
  h !! l = None -> (h ++ [x]) !! l = Some o -> o = x.
Proof.
  intros Hfresh Hl. apply lookup_ge_None in Hfresh.
  rewrite lookup_app_r in Hl by exact Hfresh.
  destruct (l - length h) as [| n]; cbn in Hl; [now injection Hl | discriminate Hl].
Qed.

Lemma heap_insert_new (h : list Obj) (o o' : Obj) :
  <[length h := o']> (h ++ [o]) = h ++ [o'].
Proof.
  rewrite insert_app_r_alt by lia. now rewrite Nat.sub_diag.
Qed.

Lemma set_prop_run l k v w o :
  heap w !! l = Some o ->
  set_prop l k v w =
    (Ok tt, set_heap (<[l := mkObj (cls o) (assign k v (props o))]> (heap w)) w).
Proof. intros H. unfold set_prop. now rewrite H. Qed.

Lemma get_prop_ref l k w o :
  heap w !! l = Some o -> get_prop (JRef l) k w = (Ok (obj_get o k), w).
Proof. intros H. cbn. now rewrite H. Qed.

Lemma ApiError_init_run c statusCode message w :
  is_api_class c = true ->
  ApiError_init c statusCode message w =
    (Ok (JRef (length (heap w))),
     set_heap (heap w ++ [api_error_obj c statusCode message (v8_frames w)]) w).
Proof.
  intros Hc. unfold ApiError_init.
  step.
  step_with (apply set_prop_run; apply heap_lookup_new).
  cbn [cls props assign String.eqb Ascii.eqb Bool.eqb]. cbn [heap set_heap].
  rewrite heap_insert_new.
  unfold captureStackTrace. rewrite !bind_assoc.
  step_with (apply get_prop_ref; apply heap_lookup_new).
  step_with (apply get_prop_ref; apply heap_lookup_new).
  step_with (apply set_prop_run; apply heap_lookup_new).
  cbn [heap set_heap]. rewrite heap_insert_new.
  unfold ret, api_error_obj, stack_of.
  destruct c; try discriminate Hc; reflexivity.
Qed.

(* ===================================================================== *)
(** ** The response object and the error-formatting middleware *)
(* ===================================================================== *)

Lemma to_int32_small z :
  (-2147483648 <= z < 2147483648)%Z -> to_int32 z = z.
Proof. intros H. unfold to_int32. rewrite Z.mod_small by lia. lia. Qed.

Lemma carries_body_facts w z :
  carries_body z ->
  truthy (JNum (Int z)) = true
  /\ status_line w (JNum (Int z)) = z
  /\ valid_line z = true
  /\ keeps_body w (JNum (Int z)) = true.
Proof.
  intros (Hrange & H204 & H205 & H304).
  assert (Hline : status_line w (JNum (Int z)) = z)
    by (cbn; apply to_int32_small; lia).
  split; [cbn; apply negb_true_iff, Z.eqb_neq; lia |].
  split; [exact Hline |].
  split; [unfold valid_line; apply andb_true_iff; split; apply Z.leb_le; lia |].
  unfold keeps_body. rewrite Hline. apply andb_true_iff. split; apply negb_true_iff.
  - cbn. rewrite !orb_false_iff. repeat split; apply Z.eqb_neq; lia.
  - unfold head_only. rewrite !orb_false_iff. repeat split; try (apply Z.eqb_neq; lia).
    apply andb_false_iff. right. apply Z.leb_gt. lia.
Qed.

Lemma parser_status_carries_body s : carries_body (parser_status s).
Proof. destruct s; cbn; unfold carries_body; lia. Qed.

Lemma res_send_run b w :
  valid_line (status_line w (res_status_code (res w))) = true ->
  res_send b w =
  (Ok tt,
   set_res
     (mkResponse (res_status_code (res w))
        (if keeps_body w (res_status_code (res w))
         then res_sent (res w) ++ [b] else res_sent (res w))
        (res_head (res w) ++ [status_line w (res_status_code (res w))]))
     w).
Proof. intros H. unfold res_send. now rewrite H. Qed.

Lemma res_send_refused b w :
  valid_line (status_line w (res_status_code (res w))) = false ->
  res_send b w =
  (Thrown (JRef (length (heap w))),
   set_heap
     (heap w ++
      [mkObj ClsRangeError
         [("stack",
           JStr (stack_of w "RangeError [ERR_HTTP_INVALID_STATUS_CODE]"
                   ("Invalid status code: " ++ inspect (runtime w) (res_status_code (res w)))));
          ("message",
           JStr ("Invalid status code: " ++ inspect (runtime w) (res_status_code (res w))))]])
     w).
Proof. intros H. unfold res_send. now rewrite H. Qed.

Lemma get_prop_run v k w :
  nullish v = false -> get_prop v k w = (Ok (read w v k), w).
Proof.
  destruct v; try discriminate; intros _; try reflexivity.
  cbn. now destruct (heap w !! l).
Qed.

Lemma truthy_not_nullish v : truthy v = true -> nullish v = false.
Proof. now destruct v. Qed.

(** The error middleware when Node accepts the status line, and when it
    does not. *)
Lemma errorFormatter_run err req next w :
  nullish err = false ->
  sendable w err = true ->
  Index.errorFormatter err req next w = (Ok RVoid, formatted w err).
Proof.
  intros Hn Hs. unfold Index.errorFormatter.
  step_with (now apply get_prop_run).
  step.
  step_with (now apply get_prop_run).
  step_with (now apply get_prop_run).
  step_with (apply res_send_run; exact Hs).
  destruct err; try discriminate Hn; reflexivity.
Qed.

Lemma errorFormatter_refused err req next w :
  nullish err = false ->
  sendable w err = false ->
  Index.errorFormatter err req next w = (Thrown (JRef (length (heap w))), refused w err).
Proof.
  intros Hn Hs. unfold Index.errorFormatter.
  step_with (now apply get_prop_run).
  step.
  step_with (now apply get_prop_run).
  step_with (now apply get_prop_run).
  unfold bind. rewrite res_send_refused by exact Hs.
  reflexivity.
Qed.


Lemma last_body_formatted w err :
  keeps_body w (format_status w err) = true ->
  last_body (formatted w err) = Some (error_body w err).
Proof.
  intros Hk. unfold last_body, formatted. cbn [res set_res res_sent].
  rewrite Hk. apply last_snoc.
Qed.

(** An error whose status carries a body: the response is its status and
    the body of its message and stack. *)
Lemma formatted_status w err z :
  read w err "statusCode" = JNum (Int z) ->
  carries_body z ->
  sendable w err = true
  /\ formatted w err =
     set_res
       (mkResponse (JNum (Int z)) (res_sent (res w) ++ [error_body w err])
          (res_head (res w) ++ [z]))
       w.
Proof.
  intros Hr Hc.
  destruct (carries_body_facts w z Hc) as (Ht & Hline & Hv & Hk).
  assert (Hf : format_status w err = JNum (Int z))
    by (unfold format_status, js_or; now rewrite Hr, Ht).
  unfold sendable, formatted. rewrite Hf, Hline, Hk. now split.
Qed.


(* ===================================================================== *)
(** ** The asynchronous adapter *)
(* ===================================================================== *)

Lemma asyncWrapper_rejected handler req next w e w1 w2 :
  handler req next w = (Ok (Rejected e), w1) ->
  next e w1 = (Ok tt, w2) ->
  asyncWrapper handler req next w = (Ok RVoid, w2).
Proof.
  intros Hh Hn. unfold asyncWrapper.
  step_with (exact Hh).
  unfold Promise_resolve, Promise_catch.
  erewrite bind_ok; [| now rewrite Hn].
  reflexivity.
Qed.



Lemma async_fn_throws body w e w1 :
  body w = (Thrown e, w1) -> async_fn body w = (Ok (Rejected e), w1).
Proof. intros H. unfold async_fn. now rewrite H. Qed.

(* ===================================================================== *)
(** ** Running the application *)
(* ===================================================================== *)

Section Dispatch.

Import Express Index.

Lemma call_layer_ok fn next w c w' :
  fn w = (Ok c, w') -> call_layer fn next w = settle c w'.
Proof. intros H. unfold call_layer. now rewrite H. Qed.


(** An error that is pending skips every layer but the error middleware. *)
Lemma is_error_inv e :
  is_error e = true ->
  js_is e "router" = false /\ layerError e = Some e /\ nullish e = false.
Proof.
  unfold is_error, layerError. intros H.
  apply andb_true_iff in H. destruct H as [H Ht].
  apply andb_true_iff in H. destruct H as [Hrouter Hroute].
  apply negb_true_iff in Hrouter. apply negb_true_iff in Hroute.
  rewrite Hroute, Ht. auto using truthy_not_nullish.
Qed.

Lemma dispatch_error_skip_route idx m pattern h rest req e w :
  is_error e = true ->
  dispatch idx (Route m pattern h :: rest) req e w =
  dispatch (S idx) rest req e w.
Proof.
  intros He. destruct (is_error_inv e He) as (Hr & Hl & _).
  cbn [dispatch]. now rewrite Hr, Hl.
Qed.

Lemma dispatch_error_skip_use idx h rest req e w :
  is_error e = true ->
  dispatch idx (Use h :: rest) req e w =
  dispatch (S idx) rest req e w.
Proof.
  intros He. destruct (is_error_inv e He) as (Hr & Hl & _).
  cbn [dispatch]. now rewrite Hr, Hl.
Qed.

Lemma dispatch_error_handler idx h rest req e w :
  is_error e = true ->
  dispatch idx (UseError h :: rest) req e w =
  (log (EvHandleError idx e) ;;
   call_layer (h e req (dispatch (S idx) rest req)) (dispatch (S idx) rest req)) w.
Proof.
  intros He. destruct (is_error_inv e He) as (Hr & Hl & _).
  cbn [dispatch]. now rewrite Hr, Hl.
Qed.

Lemma dispatch_use idx h rest req w :
  dispatch idx (Use h :: rest) req JUndefined w =
  (log (EvHandle idx) ;;
   call_layer (h req (dispatch (S idx) rest req)) (dispatch (S idx) rest req)) w.
Proof. reflexivity. Qed.

Lemma dispatch_route idx m pattern h rest req w :
  dispatch idx (Route m pattern h :: rest) req JUndefined w =
  if route_matches m pattern req
  then (log (EvHandle idx) ;;
        call_layer (h req (dispatch (S idx) rest req)) (dispatch (S idx) rest req)) w
  else dispatch (S idx) rest req JUndefined w.
Proof. cbn. now destruct (route_matches m pattern req). Qed.

(** The error middleware as the last layer: it answers, or [res.send]
    refuses the status and the [RangeError] goes to Express's default
    handler. *)
Lemma dispatch_errorFormatter idx rest req e w :
  is_error e = true ->
  sendable w e = true ->
  dispatch idx (UseError errorFormatter :: rest) req e w =
  (Ok tt, after_format idx e w).
Proof.
  intros He Hs. rewrite dispatch_error_handler by exact He. step.
  erewrite call_layer_ok
    by (apply errorFormatter_run; [now apply is_error_inv | exact Hs]).
  reflexivity.
Qed.


(** An error passes the route of [POST /post] and the catch-all and reaches
    the error middleware. *)
Lemma dispatch_error_from_post req e w :
  is_error e = true ->
  dispatch idx_post
    [Route POST "/post" postHandler; Use catchAll; UseError errorFormatter] req e w =
  dispatch idx_errorFormatter [UseError errorFormatter] req e w.
Proof.
  intros He.
  now rewrite dispatch_error_skip_route, dispatch_error_skip_use by exact He.
Qed.

(** An error object made by the application or by a body parser, at the
    end of the heap, is always answered. *)
Lemma sendable_new w o z :
  obj_get o "statusCode" = JNum (Int z) ->
  carries_body z ->
  sendable (set_heap (heap w ++ [o]) w) (JRef (length (heap w))) = true.
Proof.
  intros Ho Hc. eapply formatted_status; [| exact Hc].
  unfold read. cbn [heap set_heap]. now rewrite heap_lookup_new.
Qed.

Lemma catchAll_run req next w w2 :
  next (JRef (length (heap w)))
       (set_heap (heap w ++ [not_found_obj (path req) (v8_frames w)]) w) = (Ok tt, w2) ->
  catchAll req next w = (Ok RVoid, w2).
Proof.
  intros Hn. unfold catchAll, new_NotFoundError.
  step_with (now apply ApiError_init_run).
  step_with (exact Hn).
  reflexivity.
Qed.

Lemma dispatch_catchAll req w :
  dispatch idx_catchAll [Use catchAll; UseError errorFormatter] req JUndefined w =
  (Ok tt, after_catchAll req w).
Proof.
  rewrite dispatch_use. step.
  erewrite call_layer_ok.
  2:{ apply catchAll_run. apply dispatch_errorFormatter; [reflexivity |].
      apply (sendable_new (set_trace (trace w ++ [EvHandle idx_catchAll]) w) _ 404);
        [reflexivity | unfold carries_body; lia]. }
  reflexivity.
Qed.

Lemma postHandler_run req next w :
  postHandler req next w =
  (Ok (RPromise (Fulfilled JRes)),
   set_res (mkResponse (JNum (Int 200))
              (res_sent (res w) ++ [[("message", JStr "Hello World from post!")]])
              (res_head (res w) ++ [200%Z]))
     (set_trace (trace w ++ [EvConsole [body req]]) w)).
Proof. reflexivity. Qed.

Lemma dispatch_post req w :
  route_matches POST "/post" req = true ->
  dispatch idx_post [Route POST "/post" postHandler; Use catchAll; UseError errorFormatter]
    req JUndefined w =
  (Ok tt, after_post req w).
Proof.
  intros Hm. rewrite dispatch_route, Hm. step.
  erewrite call_layer_ok by apply postHandler_run.
  unfold after_post. cbn. now rewrite <- app_assoc.
Qed.

Lemma dispatch_post_unmatched req w :
  route_matches POST "/post" req = false ->
  dispatch idx_post [Route POST "/post" postHandler; Use catchAll; UseError errorFormatter]
    req JUndefined w =
  (Ok tt, after_catchAll req w).
Proof. intros Hm. rewrite dispatch_route, Hm. apply dispatch_catchAll. Qed.

Lemma customFunction_run w :
  customFunction w =
  (Ok (Rejected (JRef (length (heap w)))),
   set_heap (heap w ++ [bad_request_obj (v8_frames w)]) w).
Proof.
  unfold customFunction. apply async_fn_throws.
  unfold new_ApiError. step_with (now apply ApiError_init_run).
  reflexivity.
Qed.

Lemma protectedHandler_run req next w :
  protectedHandler req next w =
  (Ok (Rejected (JRef (length (heap w)))),
   set_heap (heap w ++ [bad_request_obj (v8_frames w)]) w).
Proof.
  unfold protectedHandler. apply async_fn_throws.
  step_with (apply customFunction_run).
  reflexivity.
Qed.

Lemma dispatch_protected req w :
  route_matches GET "/protected" req = true ->
  dispatch idx_protected
    [Route GET "/protected" (asyncWrapper protectedHandler);
     Route POST "/post" postHandler; Use catchAll; UseError errorFormatter]
    req JUndefined w =
  (Ok tt, after_protected w).
Proof.
  intros Hm. rewrite dispatch_route, Hm. step.
  erewrite call_layer_ok.
  2:{ eapply asyncWrapper_rejected; [apply protectedHandler_run |].
      rewrite dispatch_error_from_post by reflexivity.
      apply dispatch_errorFormatter; [reflexivity |].
      apply (sendable_new (set_trace (trace w ++ [EvHandle idx_protected]) w) _ 400);
        [reflexivity | unfold carries_body; lia]. }
  reflexivity.
Qed.

End Dispatch.

Section Handle.

Import Express Index.

Lemma parsers_pass_inv req :
  parsers_pass req = true -> json_verdict req = PassOn /\ urlencoded_verdict req = PassOn.
Proof.
  unfold parsers_pass. now destruct (json_verdict req), (urlencoded_verdict req).
Qed.

Lemma parsers_pass_no_error req :
  parsers_pass req = true <-> parser_error req = None.
Proof.
  unfold parsers_pass, parser_error.
  destruct (json_verdict req), (urlencoded_verdict req); split; congruence.
Qed.

Lemma bodyParser_pass req next w w' :
  next JUndefined w = (Ok tt, w') -> bodyParser PassOn req next w = (Ok RVoid, w').
Proof. intros H. unfold bodyParser. step_with (exact H). reflexivity. Qed.

Lemma bodyParser_forward e req next w w' :
  next (JRef (length (heap w))) (set_heap (heap w ++ [parser_error_obj e]) w) = (Ok tt, w') ->
  bodyParser (Forward e) req next w = (Ok RVoid, w').
Proof. intros H. unfold bodyParser. step. step_with (exact H). reflexivity. Qed.

(** With both parsers passing, the request reaches the routes. *)
Lemma handle_app_with h req w w' :
  parsers_pass req = true ->
  dispatch idx_protected (routes_with h) req JUndefined (parsed w) = (Ok tt, w') ->
  handle (app_with h) req w = (Ok tt, w').
Proof.
  intros Hpass H. destruct (parsers_pass_inv req Hpass) as [Hj Hu].
  unfold handle, app_with. rewrite dispatch_use. step.
  erewrite call_layer_ok.
  2:{ unfold bodyParser_json. rewrite Hj. apply bodyParser_pass.
      rewrite dispatch_use. step.
      erewrite call_layer_ok.
      2:{ unfold bodyParser_urlencoded. rewrite Hu. apply bodyParser_pass. exact H. }
      reflexivity. }
  reflexivity.
Qed.

(** The error of a body parser goes straight to the error middleware. *)
Lemma handle_json_error h req w e :
  json_verdict req = Forward e ->
  handle (app_with h) req w = (Ok tt, after_parser_error [EvHandle 0] e w).
Proof.
  intros Hj. unfold handle, app_with. rewrite dispatch_use. step.
  erewrite call_layer_ok.
  2:{ unfold bodyParser_json. rewrite Hj. apply bodyParser_forward.
      rewrite dispatch_error_skip_use, !dispatch_error_skip_route,
        dispatch_error_skip_use by reflexivity.
      apply dispatch_errorFormatter; [reflexivity |].
      apply (sendable_new (set_trace [EvHandle 0] (set_res fresh_response w)) _
               (parser_status (pe_status e))); [reflexivity |].
      apply parser_status_carries_body. }
  reflexivity.
Qed.

Lemma handle_urlencoded_error h req w e :
  json_verdict req = PassOn ->
  urlencoded_verdict req = Forward e ->
  handle (app_with h) req w = (Ok tt, after_parser_error [EvHandle 0; EvHandle 1] e w).
Proof.
  intros Hj Hu. unfold handle, app_with. rewrite dispatch_use. step.
  erewrite call_layer_ok.
  2:{ unfold bodyParser_json. rewrite Hj. apply bodyParser_pass.
      rewrite dispatch_use. step.
      erewrite call_layer_ok.
      2:{ unfold bodyParser_urlencoded. rewrite Hu. apply bodyParser_forward.
          rewrite !dispatch_error_skip_route, dispatch_error_skip_use by reflexivity.
          apply dispatch_errorFormatter; [reflexivity |].
          apply (sendable_new
                   (set_trace [EvHandle 0; EvHandle 1] (set_res fresh_response w)) _
                   (parser_status (pe_status e))); [reflexivity |].
          apply parser_status_carries_body. }
      reflexivity. }
  reflexivity.
Qed.

(** The three ways a request goes through the routes. *)
Lemma handle_protected req w :
  parsers_pass req = true ->
  route_matches GET "/protected" req = true ->
  handle app req w = (Ok tt, after_protected (parsed w)).
Proof. intros Hpass Hm. apply handle_app_with; [exact Hpass |]. now apply dispatch_protected. Qed.

Lemma handle_post req w :
  parsers_pass req = true ->
  route_matches GET "/protected" req = false ->
  route_matches POST "/post" req = true ->
  handle app req w = (Ok tt, after_post req (parsed w)).
Proof.
  intros Hpass Hp Hm. apply handle_app_with; [exact Hpass |].
  unfold routes_with. rewrite dispatch_route, Hp. now apply dispatch_post.
Qed.

Lemma handle_unmatched req w :
  parsers_pass req = true ->
  route_matches GET "/protected" req = false ->
  route_matches POST "/post" req = false ->
  handle app req w = (Ok tt, after_catchAll req (parsed w)).
Proof.
  intros Hpass Hp Hm. apply handle_app_with; [exact Hpass |].
  unfold routes_with. rewrite dispatch_route, Hp. now apply dispatch_post_unmatched.
Qed.

(** The two route paths exclude each other. *)
Lemma post_is_not_protected p :
  path_matches "/post" p = true -> path_matches "/protected" p = false.
Proof.
  unfold path_matches. intros H. apply orb_true_iff in H.
  destruct H as [H | H]; apply String.eqb_eq in H; rewrite H; reflexivity.
Qed.

Lemma protected_is_not_post p :
  path_matches "/protected" p = true -> path_matches "/post" p = false.
Proof.
  unfold path_matches. intros H. apply orb_true_iff in H.
  destruct H as [H | H]; apply String.eqb_eq in H; rewrite H; reflexivity.
Qed.

Lemma route_post_not_protected req :
  route_matches POST "/post" req = true -> route_matches GET "/protected" req = false.
Proof.
  unfold route_matches. intros H. apply andb_true_iff in H. destruct H as [H _].
  now rewrite (post_is_not_protected _ H).
Qed.

(** Every request goes one of five ways. *)
Lemma handle_app_cases req w :
  (exists e, parser_error req = Some e
             /\ exists ran, handle app req w = (Ok tt, after_parser_error ran e w)
                            /\ (ran = [EvHandle 0] \/ ran = [EvHandle 0; EvHandle 1]))
  \/ (parsers_pass req = true
      /\ route_matches GET "/protected" req = true
      /\ handle app req w = (Ok tt, after_protected (parsed w)))
  \/ (parsers_pass req = true
      /\ route_matches GET "/protected" req = false
      /\ route_matches POST "/post" req = true
      /\ handle app req w = (Ok tt, after_post req (parsed w)))
  \/ (parsers_pass req = true
      /\ route_matches GET "/protected" req = false
      /\ route_matches POST "/post" req = false
      /\ handle app req w = (Ok tt, after_catchAll req (parsed w))).
Proof.
  destruct (json_verdict req) as [| e] eqn:Hj.
  - destruct (urlencoded_verdict req) as [| e] eqn:Hu.
    + assert (Hpass : parsers_pass req = true) by (unfold parsers_pass; now rewrite Hj, Hu).
      right.
      destruct (route_matches GET "/protected" req) eqn:Hp;
        [| destruct (route_matches POST "/post" req) eqn:Hm].
      * left. repeat split; [exact Hpass | now apply handle_protected].
      * right. left. repeat split; [exact Hpass | now apply handle_post].
      * right. right. repeat split; [exact Hpass | now apply handle_unmatched].
    + left. exists e. split; [unfold parser_error; now rewrite Hj, Hu |].
      exists [EvHandle 0; EvHandle 1]. split; [now apply handle_urlencoded_error | now right].
  - left. exists e. split; [unfold parser_error; now rewrite Hj |].
    exists [EvHandle 0]. split; [now apply handle_json_error | now left].
Qed.



End Handle.

Section Shapes.

Import Express Index.

(** The world after an error object at the end of the heap, with a status
    that carries a body, has been formatted. *)
Lemma after_format_new idx o z w :
  obj_get o "statusCode" = JNum (Int z) ->
  carries_body z ->
  after_format idx (JRef (length (heap w))) (set_heap (heap w ++ [o]) w) =
  {| heap := heap w ++ [o];
     res := mkResponse (JNum (Int z))
              (res_sent (res w) ++
               [[("success", JBool false);
                 ("message", obj_get o "message");
                 ("stack", obj_get o "stack")]])
              (res_head (res w) ++ [z]);
     trace := trace w ++ [EvHandleError idx (JRef (length (heap w)))];
     node_env := node_env w;
     v8_frames := v8_frames w;
     runtime := runtime w |}.
Proof.
  intros Ho Hc. unfold after_format.
  destruct (formatted_status
              (set_trace (trace (set_heap (heap w ++ [o]) w) ++
                          [EvHandleError idx (JRef (length (heap w)))])
                 (set_heap (heap w ++ [o]) w))
              (JRef (length (heap w))) z) as [_ Hf]; [| exact Hc |].
  - unfold read. cbn [heap set_heap set_trace]. now rewrite heap_lookup_new.
  - rewrite Hf. unfold error_body, read.
    cbn [heap set_heap set_trace res set_res trace node_env v8_frames runtime].
    rewrite heap_lookup_new. reflexivity.
Qed.

Lemma after_protected_parsed w :
  after_protected (parsed w) =
  {| heap := heap w ++ [bad_request_obj (v8_frames w)];
     res := mkResponse (JNum (Int 400))
              [[("success", JBool false);
                ("message", JStr "This is just a bad request!");
                ("stack", JStr ("Error: This is just a bad request!" ++ v8_frames w))]]
              [400%Z];
     trace := [EvHandle 0; EvHandle 1; EvHandle idx_protected;
               EvHandleError idx_errorFormatter (JRef (length (heap w)))];
     node_env := node_env w;
     v8_frames := v8_frames w;
     runtime := runtime w |}.
Proof.
  unfold after_protected.
  apply (after_format_new idx_errorFormatter (bad_request_obj (v8_frames w)) 400
           (set_trace ([EvHandle 0; EvHandle 1] ++ [EvHandle idx_protected])
              (set_res fresh_response w)));
    [reflexivity | unfold carries_body; lia].
Qed.

Lemma after_catchAll_parsed req w :
  after_catchAll req (parsed w) =
  {| heap := heap w ++ [not_found_obj (path req) (v8_frames w)];
     res := mkResponse (JNum (Int 404))
              [[("success", JBool false);
                ("message", JStr ("The requested path " ++ path req ++ " not found!"));
                ("stack", JStr (stack_header "Error"
                                  ("The requested path " ++ path req ++ " not found!")
                                ++ v8_frames w))]]
              [404%Z];
     trace := [EvHandle 0; EvHandle 1; EvHandle idx_catchAll;
               EvHandleError idx_errorFormatter (JRef (length (heap w)))];
     node_env := node_env w;
     v8_frames := v8_frames w;
     runtime := runtime w |}.
Proof.
  unfold after_catchAll.
  apply (after_format_new idx_errorFormatter (not_found_obj (path req) (v8_frames w)) 404
           (set_trace ([EvHandle 0; EvHandle 1] ++ [EvHandle idx_catchAll])
              (set_res fresh_response w)));
    [reflexivity | unfold carries_body; lia].
Qed.

Lemma after_post_parsed req w :
  after_post req (parsed w) =
  {| heap := heap w;
     res := mkResponse (JNum (Int 200)) [[("message", JStr "Hello World from post!")]]
              [200%Z];
     trace := [EvHandle 0; EvHandle 1; EvHandle idx_post; EvConsole [body req]];
     node_env := node_env w;
     v8_frames := v8_frames w;
     runtime := runtime w |}.
Proof. reflexivity. Qed.

Lemma after_parser_error_shape ran e w :
  after_parser_error ran e w =
  {| heap := heap w ++ [parser_error_obj e];
     res := mkResponse (JNum (Int (parser_status (pe_status e))))
              [[("success", JBool false);
                ("message", JStr (pe_message e));
                ("stack", JStr (pe_stack e))]]
              [parser_status (pe_status e)];
     trace := ran ++ [EvHandleError idx_errorFormatter (JRef (length (heap w)))];
     node_env := node_env w;
     v8_frames := v8_frames w;
     runtime := runtime w |}.
Proof.
  unfold after_parser_error.
  apply (after_format_new idx_errorFormatter (parser_error_obj e)
           (parser_status (pe_status e))
           (set_trace ran (set_res fresh_response w)));
    [reflexivity | apply parser_status_carries_body].
Qed.

(** The message of a [NotFoundError] is never empty, so its stack header
    has the colon. *)
Lemma stack_header_not_found p :
  stack_header "Error" ("The requested path " ++ p ++ " not found!") =
  ("Error: The requested path " ++ p ++ " not found!")%string.
Proof. reflexivity. Qed.

(** What a request leaves in the heap: the objects that were there, and at
    most one new error. *)
Lemma handle_app_heap req w :
  exists new,
    heap (handle app req w).2 = heap w ++ new
    /\ (new = []
        \/ new = [bad_request_obj (v8_frames w)]
        \/ new = [not_found_obj (path req) (v8_frames w)]
        \/ exists e, new = [parser_error_obj e]).
Proof.
  destruct (handle_app_cases req w)
    as [(e & _ & ran & H & _) | [(_ & _ & H) | [(_ & _ & _ & H) | (_ & _ & _ & H)]]];
    rewrite H.
  - rewrite after_parser_error_shape. eexists. split; [reflexivity |]. eauto.
  - rewrite after_protected_parsed. eexists. split; [reflexivity |]. auto.
  - rewrite after_post_parsed. exists []. cbn. rewrite app_nil_r. auto.
  - rewrite after_catchAll_parsed. eexists. split; [reflexivity |]. auto.
Qed.

Lemma errorFormatter_heap err req next w :
  exists new, heap (errorFormatter err req next w).2 = heap w ++ new.
Proof.
  destruct (nullish err) eqn:Hn.
  - destruct err; try discriminate Hn; now eexists.
  - destruct (sendable w err) eqn:Hs.
    + rewrite errorFormatter_run by assumption. exists []. cbn. now rewrite app_nil_r.
    + rewrite errorFormatter_refused by assumption. now eexists.
Qed.

(** The response and the frames of a request depend on the request and on
    the frames only. *)
Lemma handle_app_res req w w2 :
  v8_frames w2 = v8_frames w ->
  res (handle app req w2).2 = res (handle app req w).2.
Proof.
  intros Hf.
  destruct (handle_app_cases req w)
    as [(e & He & ran & H & Hran) | [(Hpass & Hp & H)
       | [(Hpass & Hp & Hm & H) | (Hpass & Hp & Hm & H)]]];
    rewrite H.
  - destruct (handle_app_cases req w2)
      as [(e2 & He2 & ran2 & H2 & _) | [(Hpass & _) | [(Hpass & _) | (Hpass & _)]]];
      try (apply parsers_pass_no_error in Hpass; congruence).
    rewrite H2, !after_parser_error_shape. cbn. congruence.
  - rewrite (handle_protected _ w2 Hpass Hp), !after_protected_parsed. cbn. now rewrite Hf.
  - rewrite (handle_post _ w2 Hpass Hp Hm), !after_post_parsed. reflexivity.
  - rewrite (handle_unmatched _ w2 Hpass Hp Hm), !after_catchAll_parsed. cbn. now rewrite Hf.
Qed.

Lemma handle_app_frames req w :
  v8_frames (handle app req w).2 = v8_frames w.
Proof.
  destruct (handle_app_cases req w)
    as [(e & _ & ran & H & _) | [(_ & _ & H) | [(_ & _ & _ & H) | (_ & _ & _ & H)]]];
    rewrite H.
  - now rewrite after_parser_error_shape.
  - now rewrite after_protected_parsed.
  - now rewrite after_post_parsed.
  - now rewrite after_catchAll_parsed.
Qed.

End Shapes.

(* ===================================================================== *)
(** ** The model on concrete inputs *)
(* ===================================================================== *)

Example new_Error_boom :
  new_Error "boom" world0 =
  (Ok (JRef 0),
   set_heap [mkObj ClsError [("stack", JStr "Error: boom at index.ts");
                             ("message", JStr "boom")]] world0).
Proof. reflexivity. Qed.

Example new_NotFoundError_root :
  new_NotFoundError "/" world0 =
  (Ok (JRef 0),
   set_heap [mkObj ClsNotFoundError
               [("stack", JStr "Error: The requested path / not found! at index.ts");
                ("message", JStr "The requested path / not found!");
                ("statusCode", JNum (Int 404))]] world0).
Proof. reflexivity. Qed.

Example path_matching :
  Express.path_matches "/post" "/post" = true
  /\ Express.path_matches "/post" "/POST/" = true
  /\ Express.path_matches "/post" "/post/x" = false
  /\ Express.path_matches "/post" "/posta" = false.
Proof. repeat split. Qed.

Example status_lines :
  status_line world0 (JNum (Int 404)) = 404%Z
  /\ status_line world0 (JNum (Int 4294967696)) = 400%Z
  /\ status_line world0 (JNum (Int (-1))) = (-1)%Z
  /\ status_line world0 (JNum NaN) = 0%Z
  /\ status_line world0 (JBool true) = 1%Z.
Proof. repeat split. Qed.

(** The handler of [GET /protected] without the adapter: nobody observes
    the rejected promise, the hook logs and ends the process with code 1,
    and no response is sent. *)
Example unwrapped_rejection_exits :
  let unwrapped : Handler :=
    fun req next => let* p := Index.protectedHandler req next in ret (RPromise p) in
  let r := Express.handle [Express.Route GET "/protected" unwrapped;
                           Express.Use Index.catchAll;
                           Express.UseError Index.errorFormatter] req_protected world0 in
  r.1 = Exited 1%Z
  /\ res_sent (res r.2) = []
  /\ res_head (res r.2) = []
  /\ trace r.2 =
       [EvHandle 0;
        EvConsole [JStr "Error"; JStr "This is just a bad request!"];
        EvConsole [JStr "UNHANDLED REJECTION! 💥 Shutting down..."]].
Proof. repeat split. Qed.

(** The response to a request on an unknown path. *)
Example unknown_path_response :
  res (Express.handle Index.app req_unknown world0).2 =
  mkResponse (JNum (Int 404))
    [[("success", JBool false);
      ("message", JStr "The requested path /unknown-path not found!");
      ("stack", JStr "Error: The requested path /unknown-path not found! at index.ts")]]
    [404%Z].
Proof. reflexivity. Qed.

(** The response to [POST /post] with a body that is not JSON: the error
    of the parser is formatted, the route does not run. *)
Example malformed_post_response :
  res (Express.handle Index.app req_post_malformed world0).2 =
  mkResponse (JNum (Int 400))
    [[("success", JBool false);
      ("message", JStr "Unexpected token b in JSON at position 1");
      ("stack",
       JStr "SyntaxError: Unexpected token b in JSON at position 1 at JSON.parse")]]
    [400%Z]
  /\ trace (Express.handle Index.app req_post_malformed world0).2 =
     [EvHandle 0; EvHandleError Index.idx_errorFormatter (JRef 0)].
Proof. split; reflexivity. Qed.

(** An [ApiError] with status 1000, and one with status 204, in the error
    middleware: the first makes [res.send] throw and nothing is written, the
    second goes out without its body. *)
Example status_1000_is_refused :
  let r := Index.errorFormatter (JRef 0) req_unknown spy_next
             (set_heap [api_error_obj ClsApiError (Int 1000) "big" " at index.ts"] world0) in
  r.1 = Thrown (JRef 1)
  /\ read r.2 (JRef 1) "name" = JStr "RangeError"
  /\ res_sent (res r.2) = []
  /\ res_head (res r.2) = [].
Proof. repeat split. Qed.

Example status_204_has_no_body :
  let r := Index.errorFormatter (JRef 0) req_unknown spy_next
             (set_heap [api_error_obj ClsApiError (Int 204) "empty" " at index.ts"] world0) in
  r.1 = Ok RVoid
  /\ res_sent (res r.2) = []
  /\ res_head (res r.2) = [204%Z].
Proof. repeat split. Qed.

(* ===================================================================== *)
(** ** The asynchronous adapter (C1) *)
(* ===================================================================== *)




(* ===================================================================== *)
(** ** Formatting an [ApiError] (C2, C4, C7, C8) *)
(* ===================================================================== *)






(** C7, as stated, fails: the constructor stores the status code it is
    given, and 0 is not a status code of HTTP. *)
Lemma ApiError_status_is_not_validated :
  ~ (forall S M w l w1,
        new_ApiError S M w = (Ok (JRef l), w1) ->
        valid_http_status (read w1 (JRef l) "statusCode")).
Proof.
  intros H.
  destruct (H (Int 0) "gone" world0 0
              (set_heap [api_error_obj ClsApiError (Int 0) "gone" " at index.ts"] world0)
              eq_refl) as (z & Hz & Hrange).
  cbn in Hz. injection Hz as Hz. lia.
Qed.

(** C7, amended. A constructed [ApiError] is a new object that has exactly
    the status code and the message given to the constructor, whatever the
    code, and the stack rendered at construction; the objects that were in
    the heap stay as they were.  Afterwards nothing in the pipeline writes
    to an object of the heap: a pending error passes the route and the
    catch-all with the world untouched, the error-formatting middleware
    leaves every object as it found it, and so does a whole request.  The
    only objects a request adds are errors with a valid status; those the
    application constructs itself have status 400 or 404. *)
Theorem ApiError_kept_as_constructed :
  (forall S M w,
      new_ApiError S M w =
        (Ok (JRef (length (heap w))),
         set_heap (heap w ++ [api_error_obj ClsApiError S M (v8_frames w)]) w))
  /\ (forall req l w,
      Express.dispatch Index.idx_post
        [Express.Route POST "/post" Index.postHandler;
         Express.Use Index.catchAll;
         Express.UseError Index.errorFormatter] req (JRef l) w =
      Express.dispatch Index.idx_errorFormatter
        [Express.UseError Index.errorFormatter] req (JRef l) w)
  /\ (forall err req next w l o,
      heap w !! l = Some o ->
      heap (Index.errorFormatter err req next w).2 !! l = Some o)
  /\ (forall req w l o,
      heap w !! l = Some o ->
      heap (Express.handle Index.app req w).2 !! l = Some o)
  /\ (forall req w l o,
      heap w !! l = None ->
      heap (Express.handle Index.app req w).2 !! l = Some o ->
      valid_http_status (obj_get o "statusCode")
      /\ (is_api_class (cls o) = true ->
          obj_get o "statusCode" = JNum (Int 400)
          \/ obj_get o "statusCode" = JNum (Int 404))).
Proof.
  split; [| split; [| split; [| split]]].
  - intros S M w. unfold new_ApiError. now apply ApiError_init_run.
  - intros req l w.
    now rewrite dispatch_error_skip_route, dispatch_error_skip_use.
  - intros err req next w l o Hl.
    destruct (errorFormatter_heap err req next w) as [new Hnew].
    rewrite Hnew. now apply lookup_app_l_Some.
  - intros req w l o Hl.
    destruct (handle_app_heap req w) as (new & Hnew & _).
    rewrite Hnew. now apply lookup_app_l_Some.
  - intros req w l o Hfresh Hl.
    destruct (handle_app_heap req w) as (new & Hnew & Hcases).
    rewrite Hnew in Hl.
    destruct Hcases as [-> | [-> | [-> | [e ->]]]].
    + rewrite app_nil_r in Hl. congruence.
    + rewrite (lookup_new_object _ _ _ _ Hfresh Hl).
      split; [exists 400%Z; split; [reflexivity | lia] | now left].
    + rewrite (lookup_new_object _ _ _ _ Hfresh Hl).
      split; [exists 404%Z; split; [reflexivity | lia] | now right].
    + rewrite (lookup_new_object _ _ _ _ Hfresh Hl).
      split; [| discriminate].
      exists (parser_status (pe_status e)). split; [reflexivity |].
      destruct (pe_status e); cbn; lia.
Qed.

Lemma ApiError_kept_as_constructed_witness :
  heap (Index.errorFormatter (JRef 0) req_protected spy_next
          (set_heap [api_error_obj ClsApiError (Int 400) "bad" " at index.ts"] world0)).2
    !! 0 = Some (api_error_obj ClsApiError (Int 400) "bad" " at index.ts")
  /\ heap (Express.handle Index.app req_unknown world_post).2 !! 0 = Some (mkObj ClsObject [])
  /\ valid_http_status (JNum (Int 404))
  /\ (JNum (Int 404) = JNum (Int 400) \/ JNum (Int 404) = JNum (Int 404)).
Proof.
  destruct ApiError_kept_as_constructed as (_ & _ & Hformat & Hhandle & Hnew).
  split; [| split].
  - apply Hformat. reflexivity.
  - apply Hhandle. reflexivity.
  - destruct (Hnew req_unknown world_post 1 (not_found_obj "/unknown-path" " at index.ts")
                eq_refl eq_refl) as [Hvalid Hown].
    split; [exact Hvalid | apply Hown; reflexivity].
Defined.




(* ===================================================================== *)
(** ** The routes of the application (C3, C5, C6, C9, C10) *)
(* ===================================================================== *)




(** C5. A request that reaches the route [GET /protected] (the body parsers
    pass it on and the route answers it) gets status 400 and the body
    [{success: false, message: "This is just a bad request!", stack: ...}]
    with a stack that is not empty. *)
Theorem protected_is_bad_request (req : Request) (w : World) :
  Index.parsers_pass req = true ->
  Express.route_matches GET "/protected" req = true ->
  exists w' stack,
    Express.handle Index.app req w = (Ok tt, w')
    /\ res_status_code (res w') = JNum (Int 400)
    /\ res_head (res w') = [400%Z]
    /\ res_sent (res w') =
         [[("success", JBool false);
           ("message", JStr "This is just a bad request!");
           ("stack", JStr stack)]]
    /\ json_fields [("success", JBool false);
                    ("message", JStr "This is just a bad request!");
                    ("stack", JStr stack)] =
         [("success", JBool false);
          ("message", JStr "This is just a bad request!");
          ("stack", JStr stack)]
    /\ stack <> "".
Proof.
  intros Hpass Hm. eexists. eexists.
  rewrite (handle_protected _ _ Hpass Hm), after_protected_parsed.
  split; [reflexivity |]. repeat split. discriminate.
Qed.

Lemma protected_is_bad_request_witness :
  exists w' stack,
    Express.handle Index.app req_protected world0 = (Ok tt, w')
    /\ res_status_code (res w') = JNum (Int 400)
    /\ res_head (res w') = [400%Z]
    /\ res_sent (res w') =
         [[("success", JBool false);
           ("message", JStr "This is just a bad request!");
           ("stack", JStr stack)]]
    /\ json_fields [("success", JBool false);
                    ("message", JStr "This is just a bad request!");
                    ("stack", JStr stack)] =
         [("success", JBool false);
          ("message", JStr "This is just a bad request!");
          ("stack", JStr stack)]
    /\ stack <> "".
Proof. apply (protected_is_bad_request req_protected world0); reflexivity. Defined.

(** C6, as stated, fails: [POST /post] with a body that is not JSON is
    answered with the error of the JSON parser, status 400; the handler of
    the route does not run. *)
Lemma malformed_post_is_bad_request :
  ~ (forall req w,
        Express.route_matches POST "/post" req = true ->
        res_status_code (res (Express.handle Index.app req w).2) = JNum (Int 200)).
Proof.
  intros H. specialize (H req_post_malformed world0 eq_refl). discriminate H.
Qed.

(** C6, amended. A request for [POST /post] whose body the body parsers
    accept, whatever the parsed body (in particular [{}]), gets status 200
    and the body [{message: "Hello World from post!"}]; the handler has
    logged the request body and nothing else happened. *)
Theorem post_is_hello_world (req : Request) (w : World) :
  Index.parsers_pass req = true ->
  Express.route_matches POST "/post" req = true ->
  exists w',
    Express.handle Index.app req w = (Ok tt, w')
    /\ res_status_code (res w') = JNum (Int 200)
    /\ res_head (res w') = [200%Z]
    /\ res_sent (res w') = [[("message", JStr "Hello World from post!")]]
    /\ heap w' = heap w
    /\ trace w' = [EvHandle 0; EvHandle 1; EvHandle Index.idx_post; EvConsole [body req]].
Proof.
  intros Hpass Hm. eexists.
  rewrite (handle_post _ _ Hpass (route_post_not_protected _ Hm) Hm), after_post_parsed.
  repeat split.
Qed.

Lemma post_is_hello_world_witness :
  exists w',
    Express.handle Index.app req_post world_post = (Ok tt, w')
    /\ res_status_code (res w') = JNum (Int 200)
    /\ res_head (res w') = [200%Z]
    /\ res_sent (res w') = [[("message", JStr "Hello World from post!")]]
    /\ heap w' = heap world_post
    /\ trace w' = [EvHandle 0; EvHandle 1; EvHandle Index.idx_post; EvConsole [body req_post]].
Proof. apply (post_is_hello_world req_post world_post); reflexivity. Defined.

(** C9. Within one request the layers run in the order of their positions
    in the stack and none runs twice: the positions in the trace increase
    strictly.  The catch-all runs only when no route answers the request,
    and it does run then when the body parsers pass the request on; the
    error-formatting middleware runs at most once, and when it runs it is
    the last thing that happens. *)
Theorem pipeline_order (req : Request) (w : World) :
  let t := trace (Express.handle Index.app req w).2 in
  StronglySorted lt (stages t)
  /\ formatting_count t <= 1
  /\ (In Index.idx_catchAll (stages t) ->
      Express.route_matches GET "/protected" req = false
      /\ Express.route_matches POST "/post" req = false)
  /\ (Index.parsers_pass req = true ->
      Express.route_matches GET "/protected" req = false ->
      Express.route_matches POST "/post" req = false ->
      In Index.idx_catchAll (stages t))
  /\ (forall idx e, In (EvHandleError idx e) t ->
      idx = Index.idx_errorFormatter /\ exists t0, t = t0 ++ [EvHandleError idx e]).
Proof.
  intros t. subst t.
  destruct (handle_app_cases req w)
    as [(e & He & ran & H & Hran) | [(Hpass & Hp & H)
       | [(Hpass & Hp & Hm & H) | (Hpass & Hp & Hm & H)]]];
    rewrite H.
  - rewrite after_parser_error_shape. cbn [snd trace].
    assert (Hfail : Index.parsers_pass req = false).
    { destruct (Index.parsers_pass req) eqn:Hpass; [| reflexivity].
      apply parsers_pass_no_error in Hpass. congruence. }
    destruct Hran as [-> | ->]; cbn.
    + split; [sorted_positions |]. split; [lia |]. split; [intros Hin; no_such_event |].
      split; [intros Hpass; congruence |].
      intros idx e0 Hin. last_event Hin. now exists [EvHandle 0].
    + split; [sorted_positions |]. split; [lia |]. split; [intros Hin; no_such_event |].
      split; [intros Hpass; congruence |].
      intros idx e0 Hin. last_event Hin. now exists [EvHandle 0; EvHandle 1].
  - rewrite after_protected_parsed. cbn.
    split; [sorted_positions |]. split; [lia |]. split; [intros Hin; no_such_event |].
    split; [intros _ Hf; congruence |].
    intros idx e Hin. last_event Hin.
    now exists [EvHandle 0; EvHandle 1; EvHandle Index.idx_protected].
  - rewrite after_post_parsed. cbn.
    split; [sorted_positions |]. split; [lia |]. split; [intros Hin; no_such_event |].
    split; [intros _ _ Hf; congruence |].
    intros idx e Hin. no_such_event.
  - rewrite after_catchAll_parsed. cbn.
    split; [sorted_positions |]. split; [lia |]. split; [intros _; now split |].
    split; [intros _ _ _; unfold Index.idx_catchAll; tauto |].
    intros idx e Hin. last_event Hin.
    now exists [EvHandle 0; EvHandle 1; EvHandle Index.idx_catchAll].
Qed.

Lemma pipeline_order_witness :
  (In Index.idx_catchAll (stages (trace (Express.handle Index.app req_unknown world0).2)))
  /\ (Express.route_matches GET "/protected" req_unknown = false
      /\ Express.route_matches POST "/post" req_unknown = false)
  /\ (Index.idx_errorFormatter = Index.idx_errorFormatter
      /\ exists t0,
           trace (Express.handle Index.app req_protected world0).2 =
           t0 ++ [EvHandleError Index.idx_errorFormatter (JRef 0)]).
Proof.
  destruct (pipeline_order req_unknown world0) as (_ & _ & Honly & Hcatch & _).
  destruct (pipeline_order req_protected world0) as (_ & _ & _ & _ & Hlast).
  assert (Hin : In Index.idx_catchAll
                   (stages (trace (Express.handle Index.app req_unknown world0).2)))
    by (apply Hcatch; reflexivity).
  split; [exact Hin |]. split; [exact (Honly Hin) |].
  apply (Hlast Index.idx_errorFormatter (JRef 0)).
  right. right. right. left. reflexivity.
Defined.

(** C10. [customFunction] always rejects with a new [ApiError] of status
    400 and message ["This is just a bad request!"], so the promise of the
    handler of [GET /protected] is always rejected with that error and never
    fulfilled.  A request with the path of the route is never answered with
    status 200: when the body parsers pass it on the route answers 400, or,
    with another method, the catch-all answers 404, and otherwise the error
    of the parser is the answer; every body sent has [success: false]. *)
Theorem protected_never_succeeds :
  (forall w,
      Index.customFunction w =
        (Ok (Rejected (JRef (length (heap w)))),
         set_heap (heap w ++ [api_error_obj ClsApiError (Int 400)
                                "This is just a bad request!" (v8_frames w)]) w))
  /\ (forall req next w,
      Index.protectedHandler req next w =
        (Ok (Rejected (JRef (length (heap w)))),
         set_heap (heap w ++ [api_error_obj ClsApiError (Int 400)
                                "This is just a bad request!" (v8_frames w)]) w))
  /\ (forall req w,
      Index.parsers_pass req = true ->
      Express.route_matches GET "/protected" req = true ->
      res_status_code (res (Express.handle Index.app req w).2) = JNum (Int 400))
  /\ (forall req w,
      Express.path_matches "/protected" (path req) = true ->
      res_status_code (res (Express.handle Index.app req w).2) <> JNum (Int 200)
      /\ Forall (fun b => json_field "success" b = Some (JBool false))
                (res_sent (res (Express.handle Index.app req w).2))).
Proof.
  split; [exact customFunction_run |].
  split; [exact protectedHandler_run |].
  split.
  - intros req w Hpass Hm. now rewrite (handle_protected _ _ Hpass Hm), after_protected_parsed.
  - intros req w Hpath.
    destruct (handle_app_cases req w)
      as [(e & _ & ran & H & _) | [(_ & _ & H) | [(_ & _ & Hm & H) | (_ & _ & _ & H)]]];
      rewrite H.
    + rewrite after_parser_error_shape. cbn.
      split; [destruct (pe_status e); discriminate | repeat constructor].
    + rewrite after_protected_parsed. cbn.
      split; [discriminate | repeat constructor].
    + unfold Express.route_matches in Hm.
      rewrite (protected_is_not_post _ Hpath) in Hm. discriminate Hm.
    + rewrite after_catchAll_parsed. cbn.
      split; [discriminate | repeat constructor].
Qed.

Lemma protected_never_succeeds_witness :
  res_status_code (res (Express.handle Index.app req_protected world0).2) = JNum (Int 400)
  /\ res_status_code
       (res (Express.handle Index.app
               (mkRequest POST "/Protected/" JNull PassOn PassOn) world0).2)
     <> JNum (Int 200).
Proof.
  destruct protected_never_succeeds as (_ & _ & Hroute & Hpath).
  split.
  - apply Hroute; reflexivity.
  - apply (Hpath (mkRequest POST "/Protected/" JNull PassOn PassOn) world0). reflexivity.
Defined.

(* ===================================================================== *)
(** ** Further properties of the application *)
(* ===================================================================== *)

Lemma string_app_cons (c : ascii) (a b : string) :
  (String c a ++ b)%string = String c (a ++ b).
Proof. reflexivity. Qed.

Lemma string_length_app (a b : string) :
  String.length (a ++ b) = String.length a + String.length b.
Proof.
  induction a as [| c a IH]; [reflexivity |].
  rewrite string_app_cons. cbn. now rewrite IH.
Qed.

Lemma string_app_assoc (a b c : string) :
  ((a ++ b) ++ c)%string = (a ++ (b ++ c))%string.
Proof.
  induction a as [| x a IH]; [reflexivity |].
  rewrite !string_app_cons. now rewrite IH.
Qed.

Lemma string_app_inv_tail (a b s : string) :
  (a ++ s)%string = (b ++ s)%string -> a = b.
Proof.
  intros H.
  assert (Hlen : String.length a = String.length b).
  { apply (f_equal String.length) in H. rewrite !string_length_app in H. lia. }
  revert b H Hlen. induction a as [| c a IH]; intros [| d b] H Hlen;
    try discriminate Hlen; [reflexivity |].
  rewrite !string_app_cons in H. injection H as -> H. f_equal. apply IH; [exact H |].
  cbn in Hlen. lia.
Qed.

Lemma uncaughtException_run err w :
  nullish err = false ->
  Process.uncaughtException err w =
  (Exited 1%Z,
   set_trace (trace w ++ [EvConsole [read w err "name"; read w err "message"];
                          EvConsole [JStr "UNCAUGHT EXCEPTION! 💥 Shutting down..."]]) w).
Proof.
  intros Hn. unfold Process.uncaughtException.
  step_with (now apply get_prop_run).
  step_with (now apply get_prop_run).
  step. step. unfold process_exit. cbn. now rewrite <- app_assoc.
Qed.

Lemma unhandledRejection_run reason w :
  nullish reason = false ->
  Process.unhandledRejection reason w =
  (Exited 1%Z,
   set_trace (trace w ++ [EvConsole [read w reason "name"; read w reason "message"];
                          EvConsole [JStr "UNHANDLED REJECTION! 💥 Shutting down..."]]) w).
Proof.
  intros Hn. unfold Process.unhandledRejection, try_catch.
  step_with (now apply get_prop_run).
  step_with (now apply get_prop_run).
  step. step. unfold process_exit. cbn. now rewrite <- app_assoc.
Qed.

Lemma unhandledRejection_nullish reason w :
  nullish reason = true ->
  Process.unhandledRejection reason w =
  (Exited 1%Z,
   set_trace
     (trace w ++
      [EvConsole [JStr "TypeError";
                  JStr ("Cannot read properties of " ++ nullish_word reason
                        ++ " (reading 'name')")];
       EvConsole [JStr "UNCAUGHT EXCEPTION! 💥 Shutting down..."]])
     (set_heap
        (heap w ++
         [mkObj ClsTypeError
            [("stack",
              JStr (stack_of w "TypeError"
                      ("Cannot read properties of " ++ nullish_word reason
                       ++ " (reading 'name')")));
             ("message",
              JStr ("Cannot read properties of " ++ nullish_word reason
                    ++ " (reading 'name')"))]])
        w)).
Proof.
  intros Hn.
  assert (Hthrow :
    (let* n := get_prop reason "name" in
     let* m := get_prop reason "message" in
     console_log [n; m] ;;
     console_log [JStr "UNHANDLED REJECTION! 💥 Shutting down..."] ;;
     process_exit 1%Z) w =
    (Thrown (JRef (length (heap w))),
     set_heap
       (heap w ++
        [mkObj ClsTypeError
           [("stack",
             JStr (stack_of w "TypeError"
                     ("Cannot read properties of " ++ nullish_word reason
                      ++ " (reading 'name')")));
            ("message",
             JStr ("Cannot read properties of " ++ nullish_word reason
                   ++ " (reading 'name')"))]])
       w) :> Result unit * World).
  { destruct reason; try discriminate Hn; reflexivity. }
  unfold Process.unhandledRejection, try_catch. rewrite Hthrow.
  unfold Process.uncaught. rewrite uncaughtException_run by reflexivity.
  unfold read. cbn [heap set_heap]. rewrite heap_lookup_new.
  destruct reason; try discriminate Hn; reflexivity.
Qed.




(** X3. Requests do not interfere: the response to a request is the same in
    two worlds that render the same stack frames, whatever their heaps,
    traces and responses in flight; in particular it is the same after any
    other request has been handled. *)
Theorem requests_do_not_interfere (req first : Request) (w w2 : World) :
  (v8_frames w2 = v8_frames w ->
   res (Express.handle Index.app req w2).2 = res (Express.handle Index.app req w).2)
  /\ res (Express.handle Index.app req (Express.handle Index.app first w).2).2 =
     res (Express.handle Index.app req w).2.
Proof.
  split; [apply handle_app_res |].
  apply handle_app_res, handle_app_frames.
Qed.

Lemma requests_do_not_interfere_witness :
  res (Express.handle Index.app req_unknown world_post).2 =
  res (Express.handle Index.app req_unknown world0).2.
Proof.
  destruct (requests_do_not_interfere req_unknown req_post world0 world_post) as [H _].
  apply H. reflexivity.
Defined.

(** X4. The two process-wide hooks: for a reason or an error that is not
    [null] or [undefined], each prints its name and its message, then its
    banner, and ends the process with code 1; the response of the request
    in flight and the heap stay as they were. *)
Theorem hooks_log_and_exit (v : JsValue) (w : World) :
  nullish v = false ->
  Process.unhandledRejection v w =
    (Exited 1%Z,
     set_trace (trace w ++ [EvConsole [read w v "name"; read w v "message"];
                            EvConsole [JStr "UNHANDLED REJECTION! 💥 Shutting down..."]]) w)
  /\ Process.uncaughtException v w =
    (Exited 1%Z,
     set_trace (trace w ++ [EvConsole [read w v "name"; read w v "message"];
                            EvConsole [JStr "UNCAUGHT EXCEPTION! 💥 Shutting down..."]]) w).
Proof.
  intros Hn. split; [now apply unhandledRejection_run | now apply uncaughtException_run].
Qed.

Lemma hooks_log_and_exit_witness :
  Process.unhandledRejection (JRef 0) (set_heap [bad_request_obj " at index.ts"] world0) =
    (Exited 1%Z,
     set_trace [EvConsole [JStr "Error"; JStr "This is just a bad request!"];
                EvConsole [JStr "UNHANDLED REJECTION! 💥 Shutting down..."]]
       (set_heap [bad_request_obj " at index.ts"] world0))
  /\ Process.uncaughtException (JRef 0) (set_heap [bad_request_obj " at index.ts"] world0) =
    (Exited 1%Z,
     set_trace [EvConsole [JStr "Error"; JStr "This is just a bad request!"];
                EvConsole [JStr "UNCAUGHT EXCEPTION! 💥 Shutting down..."]]
       (set_heap [bad_request_obj " at index.ts"] world0)).
Proof.
  apply (hooks_log_and_exit (JRef 0) (set_heap [bad_request_obj " at index.ts"] world0)).
  reflexivity.
Defined.

(** X5. A promise rejected with [null] or [undefined]: the hook for
    unhandled rejections fails on [reason.name], the [TypeError], whose
    message names the value ([... of null ...] or [... of undefined ...]),
    goes to the hook for uncaught exceptions, which prints it under its own
    banner and ends the process with code 1. *)
Theorem rejection_without_reason_exits (reason : JsValue) (w : World) :
  nullish reason = true ->
  exists w',
    Process.unhandledRejection reason w = (Exited 1%Z, w')
    /\ trace w' =
         trace w ++
         [EvConsole [JStr "TypeError";
                     JStr (match reason with
                           | JNull => "Cannot read properties of null (reading 'name')"
                           | _ => "Cannot read properties of undefined (reading 'name')"
                           end)];
          EvConsole [JStr "UNCAUGHT EXCEPTION! 💥 Shutting down..."]]
    /\ res w' = res w.
Proof.
  intros Hn. rewrite (unhandledRejection_nullish _ _ Hn). eexists.
  split; [reflexivity |]. split; [| reflexivity].
  cbn [trace set_trace]. destruct reason; try discriminate Hn; reflexivity.
Qed.

Lemma rejection_without_reason_exits_witness :
  (exists w',
      Process.unhandledRejection JUndefined world0 = (Exited 1%Z, w')
      /\ trace w' =
           trace world0 ++
           [EvConsole [JStr "TypeError";
                       JStr "Cannot read properties of undefined (reading 'name')"];
            EvConsole [JStr "UNCAUGHT EXCEPTION! 💥 Shutting down..."]]
      /\ res w' = res world0)
  /\ (exists w',
      Process.unhandledRejection JNull world0 = (Exited 1%Z, w')
      /\ trace w' =
           trace world0 ++
           [EvConsole [JStr "TypeError";
                       JStr "Cannot read properties of null (reading 'name')"];
            EvConsole [JStr "UNCAUGHT EXCEPTION! 💥 Shutting down..."]]
      /\ res w' = res world0).
Proof.
  split.
  - apply (rejection_without_reason_exits JUndefined world0). reflexivity.
  - apply (rejection_without_reason_exits JNull world0). reflexivity.
Defined.

(** X6. A route whose handler is an [async] function that is not wrapped:
    when its promise rejects, nothing forwards the error; the hook for
    unhandled rejections prints the error and ends the process with code 1,
    the later layers do not run, and the response stays as the handler left
    it. *)
Theorem unwrapped_rejection_ends_process (h : Handler) (m : Method) (pattern : string)
        (idx : nat) (rest : list Express.Layer) (req : Request) (w w1 : World)
        (e : JsValue) :
  Express.route_matches m pattern req = true ->
  nullish e = false ->
  h req (Express.dispatch (S idx) rest req) (set_trace (trace w ++ [EvHandle idx]) w)
    = (Ok (RPromise (Rejected e)), w1) ->
  Express.dispatch idx (Express.Route m pattern h :: rest) req JUndefined w =
    (Exited 1%Z,
     set_trace (trace w1 ++ [EvConsole [read w1 e "name"; read w1 e "message"];
                             EvConsole [JStr "UNHANDLED REJECTION! 💥 Shutting down..."]])
       w1).
Proof.
  intros Hm Hn Hh. rewrite dispatch_route, Hm. step.
  erewrite call_layer_ok by exact Hh.
  now apply unhandledRejection_run.
Qed.

Lemma unwrapped_rejection_ends_process_witness :
  Express.dispatch 0
    [Express.Route GET "/protected"
       (fun req next => let* p := Index.protectedHandler req next in ret (RPromise p));
     Express.UseError Index.errorFormatter] req_protected JUndefined world0 =
  (Exited 1%Z,
   set_trace [EvHandle 0;
              EvConsole [JStr "Error"; JStr "This is just a bad request!"];
              EvConsole [JStr "UNHANDLED REJECTION! 💥 Shutting down..."]]
     (set_heap [bad_request_obj " at index.ts"] world0)).
Proof.
  apply (unwrapped_rejection_ends_process
           (fun req next => let* p := Index.protectedHandler req next in ret (RPromise p))
           GET "/protected" 0 [Express.UseError Index.errorFormatter] req_protected world0
           (set_trace [EvHandle 0] (set_heap [bad_request_obj " at index.ts"] world0))
           (JRef 0)); reflexivity.
Defined.



(** X8. Called with [null] or [undefined] the error-formatting middleware
    fails on [err.statusCode]: it throws a new [TypeError] and the response
    is left untouched, nothing is sent. *)
Theorem nullish_error_is_not_formatted (err : JsValue) (req : Request) (next : Next)
        (w : World) :
  nullish err = true ->
  exists l w2,
    Index.errorFormatter err req next w = (Thrown (JRef l), w2)
    /\ heap w !! l = None
    /\ read w2 (JRef l) "name" = JStr "TypeError"
    /\ res w2 = res w
    /\ trace w2 = trace w.
Proof.
  intros Hn. exists (length (heap w)).
  destruct err; try discriminate Hn; eexists;
    (split; [reflexivity |]); (split; [now apply lookup_ge_None |]);
    unfold read; cbn [heap set_heap]; rewrite heap_lookup_new; repeat split.
Qed.

Lemma nullish_error_is_not_formatted_witness :
  exists l w2,
    Index.errorFormatter JNull req_unknown spy_next world0 = (Thrown (JRef l), w2)
    /\ heap world0 !! l = None
    /\ read w2 (JRef l) "name" = JStr "TypeError"
    /\ res w2 = res world0
    /\ trace w2 = trace world0.
Proof.
  apply (nullish_error_is_not_formatted JNull req_unknown spy_next world0). reflexivity.
Defined.

(** X9. Whenever the error-formatting middleware answers, the status it
    has set is never falsy: it is the [statusCode] read from the error when
    that is truthy and 500 otherwise; and the status line that went out is
    that value truncated to 32 bits, a number from 100 to 999. *)
Theorem emitted_status_is_truthy (err : JsValue) (req : Request) (next : Next)
        (w w2 : World) :
  Index.errorFormatter err req next w = (Ok RVoid, w2) ->
  truthy (res_status_code (res w2)) = true
  /\ (exists sc,
       get_prop err "statusCode" w = (Ok sc, w)
       /\ res_status_code (res w2) = (if truthy sc then sc else JNum (Int 500)))
  /\ res_head (res w2) = res_head (res w) ++ [status_line w (res_status_code (res w2))]
  /\ (100 <= status_line w (res_status_code (res w2)) <= 999)%Z.
Proof.
  intros Hrun.
  assert (Hn : nullish err = false).
  { destruct err; try reflexivity; cbn in Hrun; discriminate Hrun. }
  destruct (sendable w err) eqn:Hs.
  2:{ rewrite errorFormatter_refused in Hrun by assumption. discriminate Hrun. }
  rewrite errorFormatter_run in Hrun by assumption. injection Hrun as <-.
  unfold formatted. cbn [res set_res res_status_code res_head].
  split; [| split; [| split]].
  - unfold format_status, js_or.
    now destruct (truthy (read w err "statusCode")) eqn:Ht.
  - exists (read w err "statusCode"). split; [now apply get_prop_run | reflexivity].
  - reflexivity.
  - unfold sendable, valid_line in Hs. apply andb_true_iff in Hs.
    destruct Hs as [Hlo Hhi]. apply Z.leb_le in Hlo, Hhi. lia.
Qed.

Lemma emitted_status_is_truthy_witness :
  truthy (res_status_code
            (res (formatted
                    (set_heap [api_error_obj ClsApiError (Int 4294967696) "far" " at index.ts"]
                       world0)
                    (JRef 0)))) = true
  /\ res_head
       (res (formatted
               (set_heap [api_error_obj ClsApiError (Int 4294967696) "far" " at index.ts"]
                  world0)
               (JRef 0))) = [400%Z].
Proof.
  destruct (emitted_status_is_truthy (JRef 0) req_unknown spy_next
              (set_heap [api_error_obj ClsApiError (Int 4294967696) "far" " at index.ts"]
                 world0)
              _ eq_refl) as (Ht & _ & Hhead & _).
  split; [exact Ht | exact Hhead].
Defined.

(** X10. The message of a [NotFoundError] names its path and nothing else
    does: two such errors with the same message were made for the same
    path. *)
Theorem not_found_message_names_the_path (p q : string) (w w' wp wq : World)
        (lp lq : loc) :
  new_NotFoundError p w = (Ok (JRef lp), wp) ->
  new_NotFoundError q w' = (Ok (JRef lq), wq) ->
  read wp (JRef lp) "message" = read wq (JRef lq) "message" ->
  p = q.
Proof.
  unfold new_NotFoundError. intros Hp Hq Heq.
  rewrite ApiError_init_run in Hp, Hq by reflexivity.
  injection Hp as <- <-. injection Hq as <- <-.
  unfold read in Heq. cbn [heap set_heap] in Heq.
  rewrite !heap_lookup_new in Heq. cbn in Heq.
  injection Heq as Heq.
  apply (string_app_inv_tail p q " not found!"). exact Heq.
Qed.

Lemma not_found_message_names_the_path_witness :
  read (set_heap [not_found_obj "/a" " at index.ts"] world0) (JRef 0) "message" =
    JStr "The requested path /a not found!"
  /\ "/a" = "/a".
Proof.
  split; [reflexivity |].
  apply (not_found_message_names_the_path "/a" "/a" world0 world_post
           (set_heap [not_found_obj "/a" " at index.ts"] world0)
           (set_heap [mkObj ClsObject []; not_found_obj "/a" " at index.ts"] world_post)
           0 1); reflexivity.
Defined.



(** X12. What the adapter does not catch.  A handler that throws before it
    returns a promise: the exception leaves the adapter as it is and [next]
    is not called.  A [next] that throws in the [catch] callback: the
    derived promise rejects, nobody observes it, and the hook for unhandled
    rejections ends the process with code 1. *)
Theorem asyncWrapper_limits (handler : AsyncFunction) (req : Request) (next : Next)
        (w w1 : World) (e : JsValue) :
  (handler req next w = (Thrown e, w1) ->
   asyncWrapper handler req next w = (Thrown e, w1))
  /\ (forall e' w2,
      handler req next w = (Ok (Rejected e), w1) ->
      next e w1 = (Thrown e', w2) ->
      nullish e' = false ->
      asyncWrapper handler req next w =
        (Exited 1%Z,
         set_trace (trace w2 ++ [EvConsole [read w2 e' "name"; read w2 e' "message"];
                                 EvConsole [JStr "UNHANDLED REJECTION! 💥 Shutting down..."]])
           w2)).
Proof.
  split.
  - intros Hh. unfold asyncWrapper, bind. now rewrite Hh.
  - intros e' w2 Hh Hnext Hn. unfold asyncWrapper.
    step_with (exact Hh).
    unfold Promise_resolve, Promise_catch.
    erewrite bind_ok; [| now rewrite Hnext].
    cbn [Process.drop_promise]. unfold bind.
    now rewrite (unhandledRejection_run e' w2 Hn).
Qed.

Lemma asyncWrapper_limits_witness :
  asyncWrapper (fun _ _ => throw (JStr "early")) req_protected spy_next world0 =
    (Thrown (JStr "early"), world0)
  /\ asyncWrapper (fun _ _ => ret (Rejected (JStr "late"))) req_protected
       (fun _ => throw (JStr "next failed")) world0 =
     (Exited 1%Z,
      set_trace [EvConsole [JUndefined; JUndefined];
                 EvConsole [JStr "UNHANDLED REJECTION! 💥 Shutting down..."]] world0).
Proof.
  destruct (asyncWrapper_limits (fun _ _ => throw (JStr "early")) req_protected spy_next
              world0 world0 (JStr "early")) as [Hsync _].
  destruct (asyncWrapper_limits (fun _ _ => ret (Rejected (JStr "late"))) req_protected
              (fun _ => throw (JStr "next failed")) world0 world0 (JStr "late"))
    as [_ Hnext].
  split.
  - apply Hsync. reflexivity.
  - apply (Hnext (JStr "next failed") world0); reflexivity.
Defined.

(** X13. The classes of the error model do not set [name]: an [ApiError]
    and a [NotFoundError] read as ["Error"], and the stack of either starts
    with ["Error: "] and its message, as in the responses shown in the
    README, never with the name of the class.  Constructing one touches
    neither the response nor the trace. *)
Theorem errors_are_named_Error :
  (forall S M w,
      exists l w1,
        new_ApiError S M w = (Ok (JRef l), w1)
        /\ read w1 (JRef l) "name" = JStr "Error"
        /\ read w1 (JRef l) "stack" =
             JStr ((if String.eqb M "" then "Error" else "Error: " ++ M) ++ v8_frames w)
        /\ res w1 = res w /\ trace w1 = trace w)
  /\ (forall p w,
      exists l w1,
        new_NotFoundError p w = (Ok (JRef l), w1)
        /\ read w1 (JRef l) "name" = JStr "Error"
        /\ read w1 (JRef l) "stack" =
             JStr ("Error: The requested path " ++ p ++ " not found!" ++ v8_frames w)
        /\ res w1 = res w /\ trace w1 = trace w).
Proof.
  split.
  - intros S M w. do 2 eexists. unfold new_ApiError.
    rewrite ApiError_init_run by reflexivity. split; [reflexivity |].
    unfold read. cbn [heap set_heap]. rewrite heap_lookup_new. repeat split.
  - intros p w. do 2 eexists. unfold new_NotFoundError.
    rewrite ApiError_init_run by reflexivity. split; [reflexivity |].
    unfold read. cbn [heap set_heap]. rewrite heap_lookup_new.
    split; [reflexivity |]. split; [| split; reflexivity].
    unfold obj_get, api_error_obj. cbn [props assoc String.eqb Ascii.eqb Bool.eqb].
    rewrite stack_header_not_found. f_equal.
    now rewrite !string_app_assoc.
Qed.


